(** * web_monitoring/db.py: Versions, Diffs, Annotations and the WorkQueue

    A shallow embedding of [web_monitoring/db.py].  The relational engine is
    a record of tables (lists of rows, in insertion order), the file system
    a finite map from paths to file contents, and Python exceptions a value
    of type [exn] returned next to the state reached when they were raised
    (Python does not roll anything back).  The values drawn by
    [uuid.uuid4()], [datetime.datetime.utcnow()] and
    [tempfile.NamedTemporaryFile] are explicit arguments of the functions
    that draw them. *)

From stdpp Require Import gmap strings list fin_maps pretty sorting.
From Stdlib Require Import ZArith Lia.

Set Warnings "-register-all".

(** ** Exceptions *)

(** The built-in exceptions the module can raise, the engine's
    [IntegrityError], the error of [requests], and the four classes the
    module defines itself (lines 437-455).  Messages are not modelled. *)
Inductive exn :=
  | TypeError
  | KeyError
  | AttributeError
  | ValueError
  | OSError
  | IntegrityError
  | RequestException
  | WebVersioningException
  | PageFreezerError
  | NoAncestor
  | EmptyWorkQueue.

Global Instance exn_eq_dec : EqDecision exn.
Proof. solve_decision. Defined.

(** [isinstance(e, WebVersioningException)]: the package's own classes. *)
Definition is_WebVersioningException (e : exn) : bool :=
  match e with
  | WebVersioningException | PageFreezerError | NoAncestor | EmptyWorkQueue => true
  | _ => false
  end.

Inductive result (A : Type) :=
  | Ok (a : A)
  | Raise (e : exn).
Arguments Ok {A} a.
Arguments Raise {A} e.

(** ** JSON values

    What [json.load] produces and [json.dump] accepts: the blobs stored in
    [source_metadata], [annotation], and the PageFreezer responses.  Numbers
    are integers here; an object keeps its keys in the order written. *)
Inductive json :=
  | JNull
  | JBool (b : bool)
  | JNum (z : Z)
  | JStr (s : string)
  | JArr (l : list json)
  | JObj (l : list (string * json)).

(** Python's [==] on two such values (objects compared key by key in the
    order written). *)
Fixpoint json_eqb (a b : json) {struct a} : bool :=
  match a, b with
  | JNull, JNull => true
  | JBool x, JBool y => Bool.eqb x y
  | JNum x, JNum y => Z.eqb x y
  | JStr x, JStr y => String.eqb x y
  | JArr xs, JArr ys =>
      (fix go (xs ys : list json) {struct xs} : bool :=
         match xs, ys with
         | [], [] => true
         | x :: xs', y :: ys' => json_eqb x y && go xs' ys'
         | _, _ => false
         end) xs ys
  | JObj xs, JObj ys =>
      (fix go (xs ys : list (string * json)) {struct xs} : bool :=
         match xs, ys with
         | [], [] => true
         | (k, x) :: xs', (k', y) :: ys' =>
             String.eqb k k' && json_eqb x y && go xs' ys'
         | _, _ => false
         end) xs ys
  | _, _ => false
  end.

(** [d[k]] for a string key: a dict raises [KeyError] on a missing key;
    a list, a string, a number or [None] raises [TypeError]. *)
Fixpoint assoc (k : string) (l : list (string * json)) : option json :=
  match l with
  | [] => None
  | (k', v) :: l' => if String.eqb k k' then Some v else assoc k l'
  end.

Definition getitem (d : json) (k : string) : result json :=
  match d with
  | JObj l => match assoc k l with Some v => Ok v | None => Raise KeyError end
  | _ => Raise TypeError
  end.

(** ** Library functions

    The functions of the Python libraries the module calls, and the remote
    PageFreezer service.  [requests_post_json key body] is
    [requests.post(URL, data=body, headers=...).json()] with the API key
    [key]: the parsed response, or the exception of the transport or of
    the JSON decoder. *)
Class Externals := {
  sha256_hexdigest : string → string;
  py_str : json → string;
  json_dumps : json → string;
  json_loads : string → option json;
  requests_post_json : string → string → result json
}.

(** ** Table schemas (lines 40-76)

    One record per table, one field per column in the order of the column
    tuples; positional [values] tuples fill the columns in that order. *)
Module VERSIONS_COLUMNS.
Record row := Row {
  uuid : string;
  page_uuid : string;
  capture_time : Z;
  uri : string;
  version_hash : string;
  source_type : string;
  source_metadata : json;
  created_at : Z;
  updated_at : Z
}.
End VERSIONS_COLUMNS.

Module DIFFS_COLUMNS.
Record row := Row {
  uuid : string;
  version_from : string;
  version_to : string;
  diffhash : string;
  uri : string;
  source_type : string;
  source_metadata : json;
  created_at : Z;
  updated_at : Z
}.
End DIFFS_COLUMNS.

(** A value bound to a column that is declared [Text] but receives whatever
    Python object the [values] tuple holds at its position. *)
Inductive bound :=
  | Text (s : string)
  | DateTime (t : Z).

Module ANNOTATIONS_COLUMNS.
Record row := Row {
  uuid : string;
  version_from : string;
  version_to : string;
  annotation : json;
  author : bound;
  created_at : Z;
  updated_at : option Z
}.
End ANNOTATIONS_COLUMNS.

(** ** The state of the process and its surroundings *)
Record World := mkWorld {
  environ : gmap string string;
  files : gmap string string;
  Versions_table : list VERSIONS_COLUMNS.row;
  Diffs_table : list DIFFS_COLUMNS.row;
  Annotations_table : list ANNOTATIONS_COLUMNS.row;
  (** the class attributes [Versions.unprocessed] and [Diffs.unprocessed],
      one deque each for the whole process *)
  Versions_unprocessed : list string;
  Diffs_unprocessed : list string
}.

Definition set_files (f : gmap string string) (w : World) : World :=
  mkWorld (environ w) f (Versions_table w) (Diffs_table w)
          (Annotations_table w) (Versions_unprocessed w) (Diffs_unprocessed w).
Definition set_Versions_table (t : list VERSIONS_COLUMNS.row) (w : World) : World :=
  mkWorld (environ w) (files w) t (Diffs_table w)
          (Annotations_table w) (Versions_unprocessed w) (Diffs_unprocessed w).
Definition set_Diffs_table (t : list DIFFS_COLUMNS.row) (w : World) : World :=
  mkWorld (environ w) (files w) (Versions_table w) t
          (Annotations_table w) (Versions_unprocessed w) (Diffs_unprocessed w).
Definition set_Annotations_table (t : list ANNOTATIONS_COLUMNS.row) (w : World) : World :=
  mkWorld (environ w) (files w) (Versions_table w) (Diffs_table w)
          t (Versions_unprocessed w) (Diffs_unprocessed w).
Definition set_Versions_unprocessed (q : list string) (w : World) : World :=
  mkWorld (environ w) (files w) (Versions_table w) (Diffs_table w)
          (Annotations_table w) q (Diffs_unprocessed w).
Definition set_Diffs_unprocessed (q : list string) (w : World) : World :=
  mkWorld (environ w) (files w) (Versions_table w) (Diffs_table w)
          (Annotations_table w) (Versions_unprocessed w) q.

(** ** Computations that read and write the world and may raise *)
Definition M (A : Type) : Type := World → World * result A.

Definition ret {A} (a : A) : M A := fun w => (w, Ok a).
Definition raise {A} (e : exn) : M A := fun w => (w, Raise e).
Definition bind {A B} (m : M A) (k : A → M B) : M B :=
  fun w => match m w with
           | (w', Ok a) => k a w'
           | (w', Raise e) => (w', Raise e)
           end.
(** a computation that only reads *)
Definition reading {A} (f : World → result A) : M A := fun w => (w, f w).
(** a pure step that may raise *)
Definition try {A} (r : result A) : M A := fun w => (w, r).
Definition modify (f : World → World) : M unit := fun w => (f w, Ok tt).

Notation "x <<- m ;; k" := (bind m (fun x => k))
  (at level 100, m at next level, right associativity).
Notation "m ;;; k" := (bind m (fun _ => k))
  (at level 100, right associativity).

(** ** The engine *)

(** [ORDER BY key], ascending: rows with equal keys keep the order in which
    they were inserted. *)
Fixpoint insert_sorted {A} (key : A → Z) (x : A) (l : list A) : list A :=
  match l with
  | [] => [x]
  | y :: l' => if (key y <? key x)%Z then y :: insert_sorted key x l'
               else x :: y :: l'
  end.

Definition order_by {A} (key : A → Z) (l : list A) : list A :=
  foldr (insert_sorted key) [] l.

(** [open(path).read()] and [open(path, 'w')] with a write. *)
Definition read_file (path : string) : World → result string :=
  fun w => match files w !! path with
           | Some s => Ok s
           | None => Raise OSError
           end.

Definition write_file (path content : string) : M unit :=
  modify (fun w => set_files (<[path := content]> (files w)) w).

(** ** class Versions (lines 143-218) *)
Module Versions.

(** The namedtuple [Version]; its sixth field is called [source_time] and
    receives the [source_type] column. *)
Record Version := nt {
  uuid : string;
  page_uuid : string;
  capture_time : Z;
  uri : string;
  version_hash : string;
  source_time : string;
  source_metadata : json
}.

(** [self.nt( *result[:-2])]: every column but the last two. *)
Definition of_row (result : VERSIONS_COLUMNS.row) : Version :=
  nt (VERSIONS_COLUMNS.uuid result) (VERSIONS_COLUMNS.page_uuid result)
     (VERSIONS_COLUMNS.capture_time result) (VERSIONS_COLUMNS.uri result)
     (VERSIONS_COLUMNS.version_hash result)
     (VERSIONS_COLUMNS.source_type result)
     (VERSIONS_COLUMNS.source_metadata result).

(** [==] on two namedtuples: field by field. *)
Definition eqb (a b : Version) : bool :=
  String.eqb (uuid a) (uuid b) && String.eqb (page_uuid a) (page_uuid b)
  && Z.eqb (capture_time a) (capture_time b) && String.eqb (uri a) (uri b)
  && String.eqb (version_hash a) (version_hash b)
  && String.eqb (source_time a) (source_time b)
  && json_eqb (source_metadata a) (source_metadata b).

(** [insert] with [_uuid] the drawn uuid4 and [now] the clock reading; the
    engine refuses a second row with the same primary key. *)
Definition insert (_uuid : string) (now : Z)
    (page_uuid : string) (capture_time : Z) (uri version_hash source_type : string)
    (source_metadata : json) : M string :=
  let values := VERSIONS_COLUMNS.Row _uuid page_uuid capture_time uri
                  version_hash source_type source_metadata now now in
  (fun w =>
     if existsb (fun r => String.eqb (VERSIONS_COLUMNS.uuid r) _uuid) (Versions_table w)
     then (w, Raise IntegrityError)
     else (set_Versions_table (Versions_table w ++ [values]) w, Ok tt)) ;;;
  modify (fun w => set_Versions_unprocessed (Versions_unprocessed w ++ [_uuid]) w) ;;;
  ret _uuid.

(** [__getitem__]: [fetchone()] is [None] when no row matches, and
    [None[:-2]] raises [TypeError]. *)
Definition getitem (uuid : string) : World → result Version :=
  fun w =>
    match find (fun r => String.eqb (VERSIONS_COLUMNS.uuid r) uuid) (Versions_table w) with
    | Some result => Ok (of_row result)
    | None => Raise TypeError
    end.

(** [oldest]: the first row of the page's rows ordered by [capture_time]. *)
Definition oldest (page_uuid : string) : World → result Version :=
  fun w =>
    match order_by VERSIONS_COLUMNS.capture_time
            (List.filter (fun r => String.eqb (VERSIONS_COLUMNS.page_uuid r) page_uuid)
                         (Versions_table w)) with
    | result :: _ => Ok (of_row result)
    | [] => Raise TypeError
    end.

End Versions.

(** ** class Diffs (lines 221-283) *)
Module Diffs.
Section Diffs.
Context `{Externals}.

(** The namedtuple [Diff]; [content] is the parsed payload ([JNull] is
    Python's [None]). *)
Record Diff := nt {
  uuid : string;
  version_from : string;
  version_to : string;
  diffhash : string;
  uri : string;
  source_type : string;
  source_metadata : json;
  content : json
}.

(** [self.nt( *result[:-2] + (None,))] *)
Definition of_row (result : DIFFS_COLUMNS.row) : Diff :=
  nt (DIFFS_COLUMNS.uuid result) (DIFFS_COLUMNS.version_from result)
     (DIFFS_COLUMNS.version_to result) (DIFFS_COLUMNS.diffhash result)
     (DIFFS_COLUMNS.uri result) (DIFFS_COLUMNS.source_type result)
     (DIFFS_COLUMNS.source_metadata result) JNull.

(** [d._replace(content=content)] *)
Definition _replace_content (d : Diff) (content : json) : Diff :=
  nt (uuid d) (version_from d) (version_to d) (diffhash d) (uri d)
     (source_type d) (source_metadata d) content.

(** [tempfile.NamedTemporaryFile(delete=False).name] with [name] the name
    drawn: the file is created empty, and never over an existing one. *)
Definition _get_new_filepath (name : string) : M string :=
  fun w => match files w !! name with
           | Some _ => (w, Raise OSError)
           | None => (set_files (<[name := ""]> (files w)) w, Ok name)
           end.

Definition insert (_uuid name : string) (now : Z)
    (version_from version_to : string) (result : json)
    (source_type : string) (source_metadata : json) : M string :=
  output <<- try (getitem result "output") ;;
  diffs <<- try (getitem output "diffs") ;;
  let diffhash := sha256_hexdigest (py_str diffs) in
  filepath <<- _get_new_filepath name ;;
  write_file filepath (json_dumps result) ;;;
  let values := DIFFS_COLUMNS.Row _uuid version_from version_to diffhash
                  filepath source_type source_metadata now now in
  (fun w =>
     if existsb (fun r => String.eqb (DIFFS_COLUMNS.uuid r) _uuid) (Diffs_table w)
     then (w, Raise IntegrityError)
     else (set_Diffs_table (Diffs_table w ++ [values]) w, Ok tt)) ;;;
  modify (fun w => set_Diffs_unprocessed (Diffs_unprocessed w ++ [_uuid]) w) ;;;
  ret _uuid.

(** [__getitem__]: the row, then the payload read from the file at [uri];
    a missing row raises [TypeError], a missing file [OSError], a file
    that is not JSON [ValueError]. *)
Definition getitem (uuid : string) : World → result Diff :=
  fun w =>
    match find (fun r => String.eqb (DIFFS_COLUMNS.uuid r) uuid) (Diffs_table w) with
    | None => Raise TypeError
    | Some result =>
        let d := of_row result in
        let path := uri d in
        match read_file path w with
        | Raise e => Raise e
        | Ok text =>
            match json_loads text with
            | None => Raise ValueError
            | Some content => Ok (_replace_content d content)
            end
        end
    end.

End Diffs.
End Diffs.

(** ** class Annotations (lines 286-340) *)
Module Annotations.

Record Annotation := nt {
  uuid : string;
  version_from : string;
  version_to : string;
  annotation : json;
  author : bound
}.

Definition of_row (result : ANNOTATIONS_COLUMNS.row) : Annotation :=
  nt (ANNOTATIONS_COLUMNS.uuid result) (ANNOTATIONS_COLUMNS.version_from result)
     (ANNOTATIONS_COLUMNS.version_to result) (ANNOTATIONS_COLUMNS.annotation result)
     (ANNOTATIONS_COLUMNS.author result).

(** [insert]: the tuple is
    [values = (_uuid, version_from, version_to, annotation, now, now)],
    six entries for the seven columns.  The engine pairs the entries with
    the columns in order, so the first [now] is bound to [author], the
    second to [created_at], and [updated_at] is left NULL; the parameter
    [author] occurs nowhere in the body. *)
Definition insert (_uuid : string) (now : Z)
    (version_from version_to : string) (annotation : json) (author : string)
    : M string :=
  let values := ANNOTATIONS_COLUMNS.Row _uuid version_from version_to
                  annotation (DateTime now) now None in
  (fun w =>
     if existsb (fun r => String.eqb (ANNOTATIONS_COLUMNS.uuid r) _uuid)
                (Annotations_table w)
     then (w, Raise IntegrityError)
     else (set_Annotations_table (Annotations_table w ++ [values]) w, Ok tt)) ;;;
  ret _uuid.

Definition getitem (uuid : string) : World → result Annotation :=
  fun w =>
    match find (fun r => String.eqb (ANNOTATIONS_COLUMNS.uuid r) uuid)
               (Annotations_table w) with
    | Some result => Ok (of_row result)
    | None => Raise TypeError
    end.

(** The clauses [by_change] builds: [self.table.c.<column> == value]. *)
Inductive column := c_version_from | c_version_to.
Inductive clause := Eq (c : column) (value : string).

(** Python's truth value of such a clause, which [and] asks for: for
    [==] it is [hash(left) == hash(right)] of the two operand objects, a
    column and a bound parameter, which are never the same object. *)
Definition clause_bool (e : clause) : bool := false.

(** [a and b]: [b] when [a] is true, otherwise [a]. *)
Definition py_and (a b : clause) : clause :=
  if clause_bool a then b else a.

(** what the engine makes of a clause on a row *)
Definition holds (e : clause) (r : ANNOTATIONS_COLUMNS.row) : bool :=
  match e with
  | Eq c_version_from value => String.eqb (ANNOTATIONS_COLUMNS.version_from r) value
  | Eq c_version_to value => String.eqb (ANNOTATIONS_COLUMNS.version_to r) value
  end.

Definition by_change (version_from version_to : string)
    : World → list Annotation :=
  fun w =>
    let results :=
      List.filter (holds (py_and (Eq c_version_from version_from)
                                 (Eq c_version_to version_to)))
                  (Annotations_table w) in
    map of_row results.

End Annotations.

(** ** class WorkQueue (lines 343-370) *)
Module WorkQueue.
Section WorkQueue.
Context `{Externals}.

(** [self.priorities] is the very object the caller passed: either the
    deque [Diffs.unprocessed], which [Diffs.insert] keeps appending to,
    or a list of the caller's own. *)
Inductive sequence :=
  | Diffs_unprocessed_deque
  | a_list (l : list string).

Definition iterate (s : sequence) (w : World) : list string :=
  match s with
  | Diffs_unprocessed_deque => Diffs_unprocessed w
  | a_list l => l
  end.

(** [self.diffs] is the [Diffs] interface to the engine of the world. *)
Record t := mk {
  priorities : sequence;
  checked_out : gmap string string   (* maps user_id to diff_uuid *)
}.

Definition init (priorities : sequence) : t := mk priorities ∅.

(** [self.checked_out.values()] *)
Definition values (m : gmap string string) : list string :=
  (map_to_list m).*2.

(** the [for] loop of [checkout_next] over the remaining priorities *)
Fixpoint checkout_next_loop (user_id : string) (self : t) (w : World)
    (remaining : list string) : t * result Diffs.Diff :=
  match remaining with
  | [] => (self, Raise EmptyWorkQueue)
  | diff_uuid :: remaining' =>
      if negb (bool_decide (diff_uuid ∈ values (checked_out self)))
      then (mk (priorities self) (<[user_id := diff_uuid]> (checked_out self)),
            Diffs.getitem diff_uuid w)
      else checkout_next_loop user_id self w remaining'
  end.

Definition checkout_next (user_id : string) (self : t) (w : World)
    : t * result Diffs.Diff :=
  checkout_next_loop user_id self w (iterate (priorities self) w).

(** [dict.pop] raises [KeyError] on a missing key. *)
Definition checkin (user_id : string) (self : t) : t * result unit :=
  match checked_out self !! user_id with
  | Some _ => (mk (priorities self) (delete user_id (checked_out self)), Ok tt)
  | None => (self, Raise KeyError)
  end.

Definition checkout (user_id diff_uuid : string) (self : t) (w : World)
    : t * result Diffs.Diff :=
  let self1 :=
    if bool_decide (is_Some (checked_out self !! user_id))
    then fst (checkin user_id self) else self in
  (mk (priorities self1) (<[user_id := diff_uuid]> (checked_out self1)),
   Diffs.getitem diff_uuid w).

(** A call of one of the three methods, and the queue it leaves. *)
Inductive call :=
  | Checkout_next (user_id : string)
  | Checkout (user_id diff_uuid : string)
  | Checkin (user_id : string).

Definition after (w : World) (self : t) (c : call) : t :=
  match c with
  | Checkout_next user_id => fst (checkout_next user_id self w)
  | Checkout user_id diff_uuid => fst (checkout user_id diff_uuid self w)
  | Checkin user_id => fst (checkin user_id self)
  end.

Definition run (w : World) (self : t) (calls : list call) : t :=
  foldl (after w) self calls.

End WorkQueue.
End WorkQueue.

(** ** compare and diff_version (lines 373-434) *)
Section diff_version.
Context `{Externals}.

(** [compare]: the key comes from the environment ([KeyError] when it is
    not set); [response.get] needs a dict. *)
Definition compare (html1 html2 : string) : World → result json :=
  fun w =>
    let data := JObj [("source", JStr "text"); ("url1", JStr html1);
                      ("url2", JStr html2)] in
    match environ w !! "PAGE_FREEZER_API_KEY" with
    | None => Raise KeyError
    | Some key =>
        match requests_post_json key (json_dumps data) with
        | Raise e => Raise e
        | Ok response =>
            match response with
            | JObj _ => Ok response
            | _ => Raise AttributeError
            end
        end
    end.

(** [diff_version]; the body ends without a [return], so a call that
    does not raise evaluates to [None]. *)
Definition diff_version (_uuid name : string) (now : Z)
    (version_uuid : string) (source_type : string) (source_metadata : json)
    : M (option string) :=
  version <<- reading (Versions.getitem version_uuid) ;;
  ancestor <<- reading (Versions.oldest (Versions.page_uuid version)) ;;
  if Versions.eqb ancestor version then raise NoAncestor
  else
    html1 <<- reading (read_file (Versions.uri ancestor)) ;;
    html2 <<- reading (read_file (Versions.uri version)) ;;
    result <<- reading (compare html1 html2) ;;
    status <<- try (getitem result "status") ;;
    if negb (json_eqb status (JStr "ok")) then raise PageFreezerError
    else
      payload <<- try (getitem result "result") ;;
      Diffs.insert _uuid name now (Versions.uuid ancestor) (Versions.uuid version)
                   payload source_type source_metadata ;;;
      ret None.

End diff_version.

(** ** The error kinds of the specification

    The specification names its errors by kind.  Three of the kinds have a
    class in the module; the others ([NotFoundError], [PayloadUnavailable],
    [StorageError], [NoActiveClaim]) have none, and what the module raises
    in their place is whatever built-in exception the failing statement
    raises. *)
Inductive error_kind :=
  | NotFoundError
  | NoAncestorKind
  | DiffServiceError
  | PayloadUnavailable
  | StorageError
  | EmptyQueue
  | NoActiveClaim.

Definition kind_of (e : exn) : option error_kind :=
  match e with
  | NoAncestor => Some NoAncestorKind
  | PageFreezerError => Some DiffServiceError
  | EmptyWorkQueue => Some EmptyQueue
  | _ => None
  end.

(** ** Properties of the work queue, as predicates *)

(** No two reviewers hold the same Diff. *)
Definition single_claimant (m : gmap string string) : Prop :=
  ∀ u1 u2 d, m !! u1 = Some d → m !! u2 = Some d → u1 = u2.

(** [claimed m d]: some reviewer holds [d]. *)
Definition claimed (m : gmap string string) (d : string) : Prop :=
  ∃ u, m !! u = Some d.

(** [first_unclaimed l m i d]: [d] is at position [i] of [l], nobody holds
    it, and every identity before it is held. *)
Definition first_unclaimed (l : list string) (m : gmap string string)
    (i : nat) (d : string) : Prop :=
  l !! i = Some d ∧ ¬ claimed m d ∧
  ∀ j d', (j < i)%nat → l !! j = Some d' → claimed m d'.

Section calls.
Context `{Externals}.

(** [takes_over self c]: [c] is a [checkout] of a Diff that a reviewer
    other than the caller holds. *)
Definition takes_over (self : WorkQueue.t) (c : WorkQueue.call) : bool :=
  match c with
  | WorkQueue.Checkout user_id diff_uuid =>
      bool_decide (diff_uuid ∈
        WorkQueue.values (delete user_id (WorkQueue.checked_out self)))
  | _ => false
  end.

(** No call of the sequence takes a Diff over from another reviewer. *)
Fixpoint no_take_over (w : World) (self : WorkQueue.t)
    (calls : list WorkQueue.call) : bool :=
  match calls with
  | [] => true
  | c :: calls' =>
      negb (takes_over self c) && no_take_over w (WorkQueue.after w self c) calls'
  end.
End calls.

(** ** Worlds, as predicates and functions of the properties *)

Section Diffs_worlds.
Context `{Externals}.

(** The world a successful [Diffs.insert] leaves: the payload in a new
    file, one more row, one more entry in [Diffs.unprocessed]. *)
Definition with_new_diff (_uuid name : string) (now : Z)
    (version_from version_to : string) (result diffs : json)
    (source_type : string) (source_metadata : json) (w : World) : World :=
  mkWorld (environ w) (<[name := json_dumps result]> (files w))
          (Versions_table w)
          (Diffs_table w ++
             [DIFFS_COLUMNS.Row _uuid version_from version_to
                (sha256_hexdigest (py_str diffs)) name source_type
                source_metadata now now])
          (Annotations_table w) (Versions_unprocessed w)
          (Diffs_unprocessed w ++ [_uuid]).

Definition fresh_uuid (_uuid : string) (w : World) : Prop :=
  ∀ r, r ∈ Diffs_table w → DIFFS_COLUMNS.uuid r ≠ _uuid.

End Diffs_worlds.

(** ** Data for the examples

    A printer of JSON text, a decoder that knows the documents of the
    examples, a symbolic hash and a service that always answers with the
    same successful comparison. *)
Fixpoint render (j : json) : string :=
  match j with
  | JNull => "null"
  | JBool true => "true"
  | JBool false => "false"
  | JNum z => pretty z
  | JStr s => "'" +:+ s +:+ "'"
  | JArr l =>
      "[" +:+ (fix go (l : list json) : string :=
                 match l with
                 | [] => ""
                 | [x] => render x
                 | x :: l' => render x +:+ ", " +:+ go l'
                 end) l +:+ "]"
  | JObj l =>
      "{" +:+ (fix go (l : list (string * json)) : string :=
                 match l with
                 | [] => ""
                 | [(k, x)] => "'" +:+ k +:+ "': " +:+ render x
                 | (k, x) :: l' => "'" +:+ k +:+ "': " +:+ render x +:+ ", " +:+ go l'
                 end) l +:+ "}"
  end.

Definition example_diffs : json :=
  JArr [JObj [("new", JStr "<p>b</p>"); ("old", JStr "<p>a</p>"); ("change", JNum 1)]].

Definition example_payload : json :=
  JObj [("status", JStr "ok"); ("output", JObj [("diffs", example_diffs); ("ratio", JNum 3)])].

Definition example_response : json :=
  JObj [("status", JStr "ok"); ("elapsed", JNum 2); ("result", example_payload)].

Definition known_documents : list json := [example_payload; example_response].

Global Instance example_externals : Externals := {|
  sha256_hexdigest := fun s => "sha256(" +:+ s +:+ ")";
  py_str := render;
  json_dumps := render;
  json_loads := fun s => find (fun j => String.eqb (render j) s) known_documents;
  requests_post_json := fun key body => Ok example_response
|}.

Definition empty_world : World := mkWorld ∅ ∅ [] [] [] [] [].

(** The scenario of the specification: one page with versions V1 (t=0),
    V2 (t=10) and V3 (t=20). *)
Definition example_versions : list VERSIONS_COLUMNS.row :=
  [ VERSIONS_COLUMNS.Row "V1" "example.gov" 0 "/html/v1" "h1" "PageFreezer" JNull 100 100;
    VERSIONS_COLUMNS.Row "V2" "example.gov" 10 "/html/v2" "h2" "PageFreezer" JNull 101 101;
    VERSIONS_COLUMNS.Row "V3" "example.gov" 20 "/html/v3" "h3" "PageFreezer" JNull 102 102 ].

Definition example_world : World :=
  mkWorld {[ "PAGE_FREEZER_API_KEY" := "secret" ]}
          (<["/html/v1" := "<p>a</p>"]> (<["/html/v2" := "<p>b</p>"]>
             (<["/html/v3" := "<p>c</p>"]> ∅)))
          example_versions [] [] ["V1"; "V2"; "V3"] [].

(** Two captures of one page with the same [capture_time]. *)
Definition tied_versions : list VERSIONS_COLUMNS.row :=
  [ VERSIONS_COLUMNS.Row "V1" "example.gov" 0 "/html/v1" "h1" "PageFreezer" JNull 100 100;
    VERSIONS_COLUMNS.Row "V2" "example.gov" 0 "/html/v2" "h2" "PageFreezer" JNull 101 101 ].

Definition tied_world : World := set_Versions_table tied_versions example_world.
Definition tied_world_swapped : World :=
  set_Versions_table (rev tied_versions) example_world.

(** ** class Pages (lines 88-140)

    Nothing else in the module reads the Pages table, so it is threaded
    through the three methods on its own: a list of rows in insertion
    order. *)
Module PAGES_COLUMNS.
Record row := Row {
  uuid : string;
  url : string;
  title : string;
  agency : string;
  site : string;
  created_at : Z;
  updated_at : Z
}.
End PAGES_COLUMNS.

Module Pages.

Record Page := nt {
  uuid : string;
  url : string;
  title : string;
  agency : string;
  site : string
}.

(** [self.nt( *result[:-2])] *)
Definition of_row (result : PAGES_COLUMNS.row) : Page :=
  nt (PAGES_COLUMNS.uuid result) (PAGES_COLUMNS.url result)
     (PAGES_COLUMNS.title result) (PAGES_COLUMNS.agency result)
     (PAGES_COLUMNS.site result).

Definition insert (_uuid : string) (now : Z) (url title agency site : string)
    (table : list PAGES_COLUMNS.row) : list PAGES_COLUMNS.row * result string :=
  let values := PAGES_COLUMNS.Row _uuid url title agency site now now in
  if existsb (fun r => String.eqb (PAGES_COLUMNS.uuid r) _uuid) table
  then (table, Raise IntegrityError)
  else (table ++ [values], Ok _uuid).

Definition getitem (uuid : string) (table : list PAGES_COLUMNS.row) : result Page :=
  match find (fun r => String.eqb (PAGES_COLUMNS.uuid r) uuid) table with
  | Some result => Ok (of_row result)
  | None => Raise TypeError
  end.

(** [by_url]: [fetchone()] of the rows with that url, taken in insertion
    order. *)
Definition by_url (url : string) (table : list PAGES_COLUMNS.row) : result Page :=
  match find (fun r => String.eqb (PAGES_COLUMNS.url r) url) table with
  | Some result => Ok (of_row result)
  | None => Raise TypeError
  end.

End Pages.

(** ** Versions.history (lines 195-207)

    [ORDER BY key DESC]: rows with equal keys keep the order in which they
    were inserted. *)
Definition order_by_desc {A} (key : A → Z) (l : list A) : list A :=
  order_by (fun x => (- key x)%Z) l.

(** The rows the query of [history] selects, in the order in which the
    proxy hands them out. *)
Definition history_proxy (page_uuid : string) (w : World) : list VERSIONS_COLUMNS.row :=
  order_by_desc VERSIONS_COLUMNS.capture_time
    (List.filter (fun r => String.eqb (VERSIONS_COLUMNS.page_uuid r) page_uuid)
                 (Versions_table w)).

(** What [next()] on a generator can raise. *)
Inductive generator_exception :=
  | StopIteration
  | RuntimeError.

(** One [next()] on the generator of [history], with [proxy] the rows not
    fetched yet.  A row is fetched and yielded.  When [fetchone()] returns
    [None] the body executes [raise StopIteration]: an interpreter with
    PEP 479 in force ([generator_stop], the rule from Python 3.7 on) turns
    it into [RuntimeError]; an older one lets it through. *)
Inductive resumed :=
  | Yields (version : Versions.Version) (proxy : list VERSIONS_COLUMNS.row)
  | Raises (e : generator_exception).

Definition history_next (generator_stop : bool) (proxy : list VERSIONS_COLUMNS.row)
    : resumed :=
  match proxy with
  | result :: proxy' => Yields (Versions.of_row result) proxy'
  | [] => Raises (if generator_stop then RuntimeError else StopIteration)
  end.

(** A [for] loop over the generator (or [list(...)] of it): the Versions it
    receives, and the exception that comes out of the loop, if one does;
    [StopIteration] out of [next()] is the regular end of a loop. *)
Fixpoint history_drain (generator_stop : bool) (proxy : list VERSIONS_COLUMNS.row)
    : list Versions.Version * option generator_exception :=
  match proxy with
  | result :: proxy' =>
      let rest := history_drain generator_stop proxy' in
      (Versions.of_row result :: rest.1, rest.2)
  | [] => ([], if generator_stop then Some RuntimeError else None)
  end.

Definition Versions_history (generator_stop : bool) (page_uuid : string) (w : World)
    : list Versions.Version * option generator_exception :=
  history_drain generator_stop (history_proxy page_uuid w).

(** ** Invariants of the tables and the two deques *)

(** Primary keys are distinct, and each deque lists the uuids of its table
    in insertion order. *)
Record consistent (w : World) : Prop := {
  Versions_keys : NoDup (map VERSIONS_COLUMNS.uuid (Versions_table w));
  Diffs_keys : NoDup (map DIFFS_COLUMNS.uuid (Diffs_table w));
  Annotations_keys : NoDup (map ANNOTATIONS_COLUMNS.uuid (Annotations_table w));
  Versions_deque : Versions_unprocessed w = map VERSIONS_COLUMNS.uuid (Versions_table w);
  Diffs_deque : Diffs_unprocessed w = map DIFFS_COLUMNS.uuid (Diffs_table w)
}.

(** The calls of [checkout_next] by a list of reviewers, in order. *)
Definition each_checkout_next (users : list string) : list WorkQueue.call :=
  map WorkQueue.Checkout_next users.

(** A response whose status is not ['ok']. *)
Definition failed_response : json :=
  JObj [("status", JStr "error"); ("elapsed", JNum 2)].

(** The scenario after [diff_version(V2)] has stored the Diff D1. *)
Definition world_with_D1 : World :=
  (diff_version "D1" "/tmp/f1" 200 "V2" "PageFreezer" JNull example_world).1.

(** Library functions whose service answers every request with a
    failure status. *)
Definition failing_externals : Externals := {|
  sha256_hexdigest := fun s => "sha256(" +:+ s +:+ ")";
  py_str := render;
  json_dumps := render;
  json_loads := fun s => find (fun j => String.eqb (render j) s) known_documents;
  requests_post_json := fun key body => Ok failed_response
|}.

(** * Properties *)

(** ** The claim map *)

Lemma values_claimed (m : gmap string string) (d : string) :
  d ∈ WorkQueue.values m ↔ claimed m d.
Proof.
  unfold WorkQueue.values, claimed. rewrite list_elem_of_fmap. split.
  - intros [[u d'] [-> Hin]]. exists u. by apply elem_of_map_to_list.
  - intros [u Hu]. exists (u, d). split; [done|]. by apply elem_of_map_to_list.
Qed.

Lemma single_claimant_empty : single_claimant ∅.
Proof. intros u1 u2 d Hu1. by rewrite lookup_empty in Hu1. Qed.

Lemma single_claimant_insert (m : gmap string string) (u d : string) :
  single_claimant m → ¬ claimed m d → single_claimant (<[u := d]> m).
Proof.
  intros Hm Hd u1 u2 d0 H1 H2.
  apply lookup_insert_Some in H1 as [[<- <-]|[Hne1 H1]];
    apply lookup_insert_Some in H2 as [[<- Heq]|[Hne2 H2]]; try done.
  - destruct Hd. by exists u2.
  - subst d0. destruct Hd. by exists u1.
  - eauto.
Qed.

Lemma single_claimant_delete (m : gmap string string) (u : string) :
  single_claimant m → single_claimant (delete u m).
Proof.
  intros Hm u1 u2 d H1 H2.
  apply lookup_delete_Some in H1 as [_ H1].
  apply lookup_delete_Some in H2 as [_ H2]. eauto.
Qed.

Section WorkQueue_properties.
Context `{Externals}.

(** What the loop of [checkout_next] does on any list. *)
Lemma checkout_next_loop_spec user_id self w remaining :
  let m := WorkQueue.checked_out self in
  (∃ i d, first_unclaimed remaining m i d ∧
          WorkQueue.checkout_next_loop user_id self w remaining =
            (WorkQueue.mk (WorkQueue.priorities self) (<[user_id := d]> m),
             Diffs.getitem d w))
  ∨ ((∀ d, d ∈ remaining → claimed m d) ∧
     WorkQueue.checkout_next_loop user_id self w remaining =
       (self, Raise EmptyWorkQueue)).
Proof.
  intros m. induction remaining as [|d0 rest IH]; simpl.
  - right. split; [|done]. intros d Hd. by apply elem_of_nil in Hd.
  - destruct (bool_decide (d0 ∈ WorkQueue.values (WorkQueue.checked_out self)))
      eqn:Hd0; simpl.
    + apply bool_decide_eq_true in Hd0. apply values_claimed in Hd0.
      destruct IH as [(i & d & (Hi & Hfree & Hbefore) & Heq) | [Hall Heq]].
      * left. exists (S i), d. split; [|done]. split; [done|]. split; [done|].
        intros [|j] d' Hj Hd'; simpl in Hd'.
        -- by injection Hd' as <-.
        -- apply (Hbefore j d'); [lia|done].
      * right. split; [|done]. intros d Hd.
        apply elem_of_cons in Hd as [->|Hd]; auto.
    + apply bool_decide_eq_false in Hd0. rewrite values_claimed in Hd0.
      left. exists 0%nat, d0. split; [|done].
      split; [done|]. split; [done|]. intros j d' Hj. lia.
Qed.

Lemma checkout_next_preserves user_id self w :
  single_claimant (WorkQueue.checked_out self) →
  single_claimant (WorkQueue.checked_out (fst (WorkQueue.checkout_next user_id self w))).
Proof.
  intros Hm. unfold WorkQueue.checkout_next.
  destruct (checkout_next_loop_spec user_id self w
              (WorkQueue.iterate (WorkQueue.priorities self) w))
    as [(i & d & (_ & Hfree & _) & ->) | [_ ->]]; simpl; [|done].
  by apply single_claimant_insert.
Qed.

Lemma checkin_preserves user_id self :
  single_claimant (WorkQueue.checked_out self) →
  single_claimant (WorkQueue.checked_out (fst (WorkQueue.checkin user_id self))).
Proof.
  intros Hm. unfold WorkQueue.checkin.
  destruct (WorkQueue.checked_out self !! user_id); simpl; [|done].
  by apply single_claimant_delete.
Qed.

(** The claim map [checkout] leaves, whether or not the caller held a
    claim before. *)
Lemma checkout_checked_out user_id diff_uuid self w :
  WorkQueue.checkout user_id diff_uuid self w =
    (WorkQueue.mk (WorkQueue.priorities self)
                  (<[user_id := diff_uuid]> (WorkQueue.checked_out self)),
     Diffs.getitem diff_uuid w).
Proof.
  unfold WorkQueue.checkout, WorkQueue.checkin.
  case_bool_decide as Hin.
  - destruct Hin as [d0 Hd0]. rewrite Hd0. simpl. by rewrite insert_delete_eq.
  - done.
Qed.

Lemma checkout_preserves user_id diff_uuid self w :
  single_claimant (WorkQueue.checked_out self) →
  takes_over self (WorkQueue.Checkout user_id diff_uuid) = false →
  single_claimant
    (WorkQueue.checked_out (fst (WorkQueue.checkout user_id diff_uuid self w))).
Proof.
  intros Hm Hno. rewrite checkout_checked_out. simpl in *.
  apply bool_decide_eq_false in Hno. rewrite values_claimed in Hno.
  rewrite <- insert_delete_eq.
  apply single_claimant_insert; [by apply single_claimant_delete|done].
Qed.

Lemma after_preserves w self c :
  single_claimant (WorkQueue.checked_out self) →
  takes_over self c = false →
  single_claimant (WorkQueue.checked_out (WorkQueue.after w self c)).
Proof.
  destruct c as [u|u d|u]; simpl; intros Hm Hno.
  - by apply checkout_next_preserves.
  - by apply (checkout_preserves u d self w).
  - by apply checkin_preserves.
Qed.

Lemma run_preserves w calls : ∀ self (n : nat),
  single_claimant (WorkQueue.checked_out self) →
  no_take_over w self calls = true →
  single_claimant (WorkQueue.checked_out (WorkQueue.run w self (take n calls))).
Proof.
  induction calls as [|c calls IH]; intros self n Hm Hok.
  - by rewrite take_nil.
  - destruct n as [|n]; [done|]. simpl in *.
    apply andb_true_iff in Hok as [Hc Hrest].
    apply negb_true_iff in Hc.
    apply IH; [by apply (after_preserves w)|done].
Qed.

End WorkQueue_properties.

Lemma first_unclaimed_unique (l : list string) (m : gmap string string)
    (i i' : nat) (d d' : string) :
  first_unclaimed l m i d → first_unclaimed l m i' d' → i = i' ∧ d = d'.
Proof.
  intros (Hi & Hfree & Hbefore) (Hi' & Hfree' & Hbefore').
  assert (i = i') as <-.
  { destruct (Nat.lt_trichotomy i i') as [Hlt|[Heq|Hgt]]; [|done|].
    - destruct Hfree. by apply (Hbefore' i d).
    - destruct Hfree'. by apply (Hbefore i' d'). }
  split; [done|]. congruence.
Qed.

Lemma Diffs_getitem_uuid `{Externals} (uuid : string) (w : World) (diff : Diffs.Diff) :
  Diffs.getitem uuid w = Ok diff → Diffs.uuid diff = uuid.
Proof.
  unfold Diffs.getitem.
  destruct (find _ (Diffs_table w)) as [r|] eqn:Hfind; [|done].
  apply find_some in Hfind as [_ Heq]. apply String.eqb_eq in Heq.
  destruct (read_file _ w); [|done].
  destruct (json_loads _); [|done].
  by intros [= <-].
Qed.

(** ** The claims about the work queue *)

(** C1, as the code has it.  [checkout] records the claim without looking
    at who holds the Diff, so the claim map stays free of shared Diffs only
    along sequences of calls in which no [checkout] names a Diff that
    another reviewer holds at that moment: for every such sequence from a
    fresh WorkQueue, and at every point of it, no two reviewers hold the
    same Diff. *)
Theorem single_claimant_without_take_over `{Externals}
    (w : World) (priorities : WorkQueue.sequence)
    (calls : list WorkQueue.call) (n : nat) :
  no_take_over w (WorkQueue.init priorities) calls = true →
  single_claimant
    (WorkQueue.checked_out
       (WorkQueue.run w (WorkQueue.init priorities) (take n calls))).
Proof.
  intros Hok. apply run_preserves; [|done]. apply single_claimant_empty.
Qed.

Lemma single_claimant_without_take_over_witness :
  let calls := [WorkQueue.Checkout_next "alice"; WorkQueue.Checkout "bob" "D2";
                WorkQueue.Checkout "alice" "D3"; WorkQueue.Checkin "bob";
                WorkQueue.Checkout_next "carol"] in
  no_take_over empty_world (WorkQueue.init (WorkQueue.a_list ["D1"; "D2"; "D3"])) calls = true ∧
  single_claimant
    (WorkQueue.checked_out
       (WorkQueue.run empty_world (WorkQueue.init (WorkQueue.a_list ["D1"; "D2"; "D3"]))
          (take 5 calls))).
Proof.
  intros calls.
  assert (no_take_over empty_world
            (WorkQueue.init (WorkQueue.a_list ["D1"; "D2"; "D3"])) calls = true) as Hok
    by (vm_compute; reflexivity).
  split; [exact Hok|].
  exact (single_claimant_without_take_over empty_world _ calls 5 Hok).
Defined.

(** C1 as stated fails: on a fresh WorkQueue, [checkout("alice", D1)]
    followed by [checkout("bob", D1)] leaves both reviewers holding D1. *)
Lemma checkout_shares_a_diff :
  let q := WorkQueue.run empty_world (WorkQueue.init (WorkQueue.a_list ["D1"]))
             [WorkQueue.Checkout "alice" "D1"; WorkQueue.Checkout "bob" "D1"] in
  WorkQueue.checked_out q !! "alice" = Some "D1" ∧
  WorkQueue.checked_out q !! "bob" = Some "D1" ∧
  ¬ single_claimant (WorkQueue.checked_out q).
Proof.
  intros q.
  assert (WorkQueue.checked_out q !! "alice" = Some "D1") as Ha by (vm_compute; reflexivity).
  assert (WorkQueue.checked_out q !! "bob" = Some "D1") as Hb by (vm_compute; reflexivity).
  split; [done|]. split; [done|].
  intros Hone. by specialize (Hone "alice" "bob" "D1" Ha Hb).
Qed.

(** C2, as the code has it.  [checkout_next(user_id)] takes the first
    identity of the priority list that is not a value of the claim map and
    records [user_id] for it; it returns the Diff with that identity when
    the Diffs table has a row for it and the file at the row's [uri] holds
    JSON: the row's fields and the parsed payload.  When the lookup raises
    instead, the call raises the same exception.  When every identity of
    the list is a value of the claim map (as for an empty list) it raises
    [EmptyWorkQueue], the EmptyQueue of the specification, and leaves the
    queue as it was. *)
Theorem checkout_next_hands_first_unclaimed `{Externals}
    (user_id : string) (self : WorkQueue.t) (w : World) (l : list string) :
  WorkQueue.priorities self = WorkQueue.a_list l ∨
  (WorkQueue.priorities self = WorkQueue.Diffs_unprocessed_deque ∧
   Diffs_unprocessed w = l) →
  let m := WorkQueue.checked_out self in
  let out := WorkQueue.checkout_next user_id self w in
  (∀ i d, first_unclaimed l m i d →
     out.1 = WorkQueue.mk (WorkQueue.priorities self) (<[user_id := d]> m) ∧
     (∀ row text content,
        find (fun r => String.eqb (DIFFS_COLUMNS.uuid r) d) (Diffs_table w) = Some row →
        files w !! DIFFS_COLUMNS.uri row = Some text →
        json_loads text = Some content →
        out.2 = Ok (Diffs.nt d (DIFFS_COLUMNS.version_from row)
                      (DIFFS_COLUMNS.version_to row) (DIFFS_COLUMNS.diffhash row)
                      (DIFFS_COLUMNS.uri row) (DIFFS_COLUMNS.source_type row)
                      (DIFFS_COLUMNS.source_metadata row) content)) ∧
     (∀ e, Diffs.getitem d w = Raise e → out.2 = Raise e))
  ∧ ((∀ d, d ∈ l → claimed m d) →
     out = (self, Raise EmptyWorkQueue) ∧ kind_of EmptyWorkQueue = Some EmptyQueue).
Proof.
  intros Hpriorities m out.
  assert (WorkQueue.iterate (WorkQueue.priorities self) w = l) as Hiter.
  { by destruct Hpriorities as [-> | [-> <-]]. }
  unfold out, WorkQueue.checkout_next. rewrite Hiter.
  destruct (checkout_next_loop_spec user_id self w l)
    as [(i' & d' & Hfirst' & ->) | [Hall ->]]; simpl.
  - split.
    + intros i d Hfirst.
      destruct (first_unclaimed_unique _ _ _ _ _ _ Hfirst Hfirst') as [_ <-].
      split; [done|]. split; [|done].
      intros row text content Hfind Hfile Hjson.
      unfold Diffs.getitem, read_file. rewrite Hfind. cbn. rewrite Hfile, Hjson.
      apply find_some in Hfind as [_ Heq]. apply String.eqb_eq in Heq.
      rewrite <- Heq. reflexivity.
    + intros Hall. destruct Hfirst' as (Hi & Hfree & _). destruct Hfree.
      apply Hall. by apply list_elem_of_lookup_2 in Hi.
  - split; [|done].
    intros i d (Hi & Hfree & _). destruct Hfree. apply Hall.
    by apply list_elem_of_lookup_2 in Hi.
Qed.

(** With D1 stored and enqueued, a fresh WorkQueue over [Diffs.unprocessed]
    hands alice the Diff D1 with its payload; bob then finds the queue
    empty. *)
Lemma checkout_next_hands_first_unclaimed_witness :
  first_unclaimed ["D1"] ∅ 0 "D1" ∧
  WorkQueue.checkout_next "alice" (WorkQueue.init WorkQueue.Diffs_unprocessed_deque)
      world_with_D1 =
    (WorkQueue.mk WorkQueue.Diffs_unprocessed_deque (<["alice" := "D1"]> ∅),
     Ok (Diffs.nt "D1" "V1" "V2" (sha256_hexdigest (py_str example_diffs)) "/tmp/f1"
           "PageFreezer" JNull example_payload)) ∧
  WorkQueue.checkout_next "bob"
      (WorkQueue.mk WorkQueue.Diffs_unprocessed_deque (<["alice" := "D1"]> ∅))
      world_with_D1 =
    (WorkQueue.mk WorkQueue.Diffs_unprocessed_deque (<["alice" := "D1"]> ∅),
     Raise EmptyWorkQueue).
Proof.
  assert (first_unclaimed ["D1"] ∅ 0 "D1") as Hfirst.
  { split; [reflexivity|]. split.
    - intros [u Hu]. by rewrite lookup_empty in Hu.
    - intros j d' Hj. lia. }
  split; [exact Hfirst|]. split.
  - destruct (checkout_next_hands_first_unclaimed "alice"
                (WorkQueue.init WorkQueue.Diffs_unprocessed_deque) world_with_D1 ["D1"])
      as [Hhand _].
    { right. split; reflexivity. }
    destruct (Hhand 0%nat "D1" Hfirst) as (Hqueue & Hdiff & _).
    rewrite (surjective_pairing (WorkQueue.checkout_next _ _ _)).
    rewrite Hqueue.
    rewrite (Hdiff (DIFFS_COLUMNS.Row "D1" "V1" "V2"
                      (sha256_hexdigest (py_str example_diffs)) "/tmp/f1"
                      "PageFreezer" JNull 200 200)
                   (json_dumps example_payload) example_payload).
    + reflexivity.
    + vm_compute; reflexivity.
    + vm_compute; reflexivity.
    + vm_compute; reflexivity.
  - destruct (checkout_next_hands_first_unclaimed "bob"
                (WorkQueue.mk WorkQueue.Diffs_unprocessed_deque (<["alice" := "D1"]> ∅))
                world_with_D1 ["D1"]) as [_ Hempty].
    { right. split; reflexivity. }
    apply Hempty. intros d Hd. apply list_elem_of_singleton in Hd as ->.
    exists "alice". apply lookup_insert_eq.
Defined.

(** C2 as stated fails where the first unclaimed identity has no row in
    the Diffs table: D1 is unclaimed, so not every identity is claimed,
    yet [checkout_next] returns no Diff; it raises [TypeError], which is
    not [EmptyWorkQueue] either. *)
Lemma checkout_next_of_missing_Diff :
  let self := WorkQueue.init (WorkQueue.a_list ["D1"; "D2"]) in
  let out := WorkQueue.checkout_next "alice" self empty_world in
  first_unclaimed ["D1"; "D2"] (WorkQueue.checked_out self) 0 "D1" ∧
  out = (WorkQueue.mk (WorkQueue.a_list ["D1"; "D2"]) (<["alice" := "D1"]> ∅),
         Raise TypeError) ∧
  (∀ diff, out.2 ≠ Ok diff) ∧
  out.2 ≠ Raise EmptyWorkQueue.
Proof.
  intros self out.
  assert (out = (WorkQueue.mk (WorkQueue.a_list ["D1"; "D2"]) (<["alice" := "D1"]> ∅),
                 Raise TypeError)) as Hout by reflexivity.
  split.
  { split; [reflexivity|]. split.
    - intros [u Hu]. simpl in Hu. by rewrite lookup_empty in Hu.
    - intros j d' Hj. lia. }
  split; [exact Hout|]. rewrite Hout. simpl. split; [intros diff|]; discriminate.
Qed.

(** C10.  [checkout] and [checkout_next] write the claim map before they
    load the Diff: when the lookup of the identity raises (no such row, or
    an unreadable payload), the call raises the same exception and the
    claim it recorded is still in the claim map. *)
Theorem claim_survives_failed_lookup `{Externals}
    (user_id : string) (self : WorkQueue.t) (w : World) (d : string) (e : exn) :
  Diffs.getitem d w = Raise e →
  let recorded :=
    WorkQueue.mk (WorkQueue.priorities self)
                 (<[user_id := d]> (WorkQueue.checked_out self)) in
  WorkQueue.checked_out recorded !! user_id = Some d ∧
  WorkQueue.checkout user_id d self w = (recorded, Raise e) ∧
  (∀ i, first_unclaimed (WorkQueue.iterate (WorkQueue.priorities self) w)
                        (WorkQueue.checked_out self) i d →
        WorkQueue.checkout_next user_id self w = (recorded, Raise e)).
Proof.
  intros Hfail recorded. split; [apply lookup_insert_eq|]. split.
  - rewrite checkout_checked_out. by rewrite Hfail.
  - intros i Hfirst.
    unfold WorkQueue.checkout_next.
    destruct (checkout_next_loop_spec user_id self w
                (WorkQueue.iterate (WorkQueue.priorities self) w))
      as [(i' & d' & Hfirst' & Heq) | (Hall & _)].
    + destruct (first_unclaimed_unique _ _ _ _ _ _ Hfirst Hfirst') as [_ <-].
      by rewrite Heq, Hfail.
    + destruct Hfirst as (Hi & Hfree & _). destruct Hfree. apply Hall.
      by apply list_elem_of_lookup_2 in Hi.
Qed.

(** A queue over D1 and D2 while the Diffs table is empty: the lookup of D1
    raises [TypeError]. *)
Lemma claim_survives_failed_lookup_witness :
  let self := WorkQueue.init (WorkQueue.a_list ["D1"; "D2"]) in
  let recorded := WorkQueue.mk (WorkQueue.a_list ["D1"; "D2"]) (<["alice" := "D1"]> ∅) in
  Diffs.getitem "D1" empty_world = Raise TypeError ∧
  first_unclaimed ["D1"; "D2"] ∅ 0 "D1" ∧
  WorkQueue.checked_out recorded !! "alice" = Some "D1" ∧
  WorkQueue.checkout "alice" "D1" self empty_world = (recorded, Raise TypeError) ∧
  WorkQueue.checkout_next "alice" self empty_world = (recorded, Raise TypeError).
Proof.
  intros self recorded.
  assert (Diffs.getitem "D1" empty_world = Raise TypeError) as Hfail by reflexivity.
  assert (first_unclaimed ["D1"; "D2"] ∅ 0 "D1") as Hfirst.
  { split; [reflexivity|]. split.
    - intros [u Hu]. by rewrite lookup_empty in Hu.
    - intros j d' Hj. lia. }
  destruct (claim_survives_failed_lookup "alice" self empty_world "D1" TypeError Hfail)
    as (Hrec & Hout & Hnext).
  split; [exact Hfail|]. split; [exact Hfirst|]. split; [exact Hrec|].
  split; [exact Hout|]. exact (Hnext 0%nat Hfirst).
Defined.

(** ** Equality of JSON values and of Versions *)

Lemma json_eqb_refl : ∀ a : json, json_eqb a a = true.
Proof.
  fix IH 1. intros [ | b | z | s | l | l]; simpl.
  - done.
  - by destruct b.
  - apply Z.eqb_refl.
  - apply String.eqb_refl.
  - induction l as [|x l IHl]; [done|]. by rewrite IH, IHl.
  - induction l as [|[k x] l IHl]; [done|].
    by rewrite String.eqb_refl, IH, IHl.
Qed.

Lemma json_eqb_eq : ∀ a b : json, json_eqb a b = true → a = b.
Proof.
  fix IH 1. intros [ | x | x | x | xs | xs] [ | y | y | y | ys | ys]; simpl;
    try discriminate.
  - done.
  - intros Hxy. apply Bool.eqb_prop in Hxy. by subst.
  - intros Hxy. apply Z.eqb_eq in Hxy. by subst.
  - intros Hxy. apply String.eqb_eq in Hxy. by subst.
  - intros Hgo. f_equal. revert ys Hgo.
    induction xs as [|x xs IHxs]; intros [|y ys] Hgo; try discriminate; [done|].
    apply andb_true_iff in Hgo as [Hxy Hrest].
    f_equal; [by apply IH|by apply IHxs].
  - intros Hgo. f_equal. revert ys Hgo.
    induction xs as [|[k x] xs IHxs]; intros [|[k' y] ys] Hgo;
      try discriminate; [done|].
    apply andb_true_iff in Hgo as [Hhead Hrest].
    apply andb_true_iff in Hhead as [Hk Hxy].
    apply String.eqb_eq in Hk. subst k'.
    f_equal; [f_equal; by apply IH|by apply IHxs].
Qed.

Lemma Versions_eqb_refl (v : Versions.Version) : Versions.eqb v v = true.
Proof.
  unfold Versions.eqb.
  by rewrite !String.eqb_refl, Z.eqb_refl, json_eqb_refl.
Qed.

Lemma Versions_eqb_eq (a b : Versions.Version) : Versions.eqb a b = true → a = b.
Proof.
  unfold Versions.eqb. destruct a, b; simpl. intros Heq.
  repeat (apply andb_true_iff in Heq as [Heq ?]).
  repeat match goal with
         | E : String.eqb _ _ = true |- _ => apply String.eqb_eq in E
         | E : Z.eqb _ _ = true |- _ => apply Z.eqb_eq in E
         | E : json_eqb _ _ = true |- _ => apply json_eqb_eq in E
         end.
  congruence.
Qed.

Lemma Versions_eqb_neq (a b : Versions.Version) : a ≠ b → Versions.eqb a b = false.
Proof.
  intros Hne. destruct (Versions.eqb a b) eqn:Heq; [|done].
  by apply Versions_eqb_eq in Heq.
Qed.

(** ** ORDER BY *)

Lemma elem_of_insert_sorted {A} (key : A → Z) (x y : A) (l : list A) :
  y ∈ insert_sorted key x l ↔ y = x ∨ y ∈ l.
Proof.
  induction l as [|z l IH]; simpl.
  - rewrite list_elem_of_singleton, elem_of_nil. tauto.
  - destruct (key z <? key x)%Z.
    + rewrite !elem_of_cons, IH. tauto.
    + rewrite !elem_of_cons. tauto.
Qed.

Lemma elem_of_order_by {A} (key : A → Z) (y : A) (l : list A) :
  y ∈ order_by key l ↔ y ∈ l.
Proof.
  induction l as [|x l IH]; simpl; [done|].
  by rewrite elem_of_insert_sorted, elem_of_cons, IH.
Qed.

(** The first row of [ORDER BY key] has the least key. *)
Lemma order_by_head_least {A} (key : A → Z) (l : list A) (r : A) (rest : list A) :
  order_by key l = r :: rest → ∀ x, x ∈ l → (key r ≤ key x)%Z.
Proof.
  revert r rest. induction l as [|a l IH]; intros r rest Hsort x Hx.
  - by apply elem_of_nil in Hx.
  - simpl in Hsort. destruct (order_by key l) as [|y ys] eqn:Hl.
    + injection Hsort as <- <-.
      apply elem_of_cons in Hx as [->|Hx]; [lia|].
      apply (elem_of_order_by key) in Hx. rewrite Hl in Hx.
      by apply elem_of_nil in Hx.
    + specialize (IH y ys eq_refl). simpl in Hsort.
      destruct (key y <? key a)%Z eqn:Hlt.
      * injection Hsort as <- <-. apply Z.ltb_lt in Hlt.
        apply elem_of_cons in Hx as [->|Hx]; [lia|by apply IH].
      * injection Hsort as <- <-. apply Z.ltb_ge in Hlt.
        apply elem_of_cons in Hx as [->|Hx]; [lia|].
        specialize (IH x Hx). lia.
Qed.

Lemma elem_of_filter_page (page_uuid : string) (r : VERSIONS_COLUMNS.row)
    (t : list VERSIONS_COLUMNS.row) :
  r ∈ List.filter (fun r => String.eqb (VERSIONS_COLUMNS.page_uuid r) page_uuid) t
  ↔ r ∈ t ∧ VERSIONS_COLUMNS.page_uuid r = page_uuid.
Proof. by rewrite !list_elem_of_In, filter_In, String.eqb_eq. Qed.

(** What [oldest] returns: a row of the page with the least
    [capture_time], or [TypeError] when the page has no row. *)
Lemma oldest_cases (page_uuid : string) (w : World) :
  (∃ r, r ∈ Versions_table w ∧ VERSIONS_COLUMNS.page_uuid r = page_uuid ∧
        Versions.oldest page_uuid w = Ok (Versions.of_row r) ∧
        ∀ r', r' ∈ Versions_table w → VERSIONS_COLUMNS.page_uuid r' = page_uuid →
              (VERSIONS_COLUMNS.capture_time r ≤ VERSIONS_COLUMNS.capture_time r')%Z)
  ∨ ((∀ r, r ∈ Versions_table w → VERSIONS_COLUMNS.page_uuid r ≠ page_uuid) ∧
     Versions.oldest page_uuid w = Raise TypeError).
Proof.
  unfold Versions.oldest.
  destruct (order_by _ (List.filter _ (Versions_table w))) as [|r rest] eqn:Hsort.
  - right. split; [|done]. intros r Hr Hpage.
    assert (r ∈ order_by VERSIONS_COLUMNS.capture_time
                  (List.filter (fun r => String.eqb (VERSIONS_COLUMNS.page_uuid r) page_uuid)
                               (Versions_table w))) as Hin
      by by apply elem_of_order_by, elem_of_filter_page.
    rewrite Hsort in Hin. by apply elem_of_nil in Hin.
  - left. exists r.
    assert (r ∈ Versions_table w ∧ VERSIONS_COLUMNS.page_uuid r = page_uuid) as [Hr Hpage].
    { apply elem_of_filter_page, (elem_of_order_by VERSIONS_COLUMNS.capture_time).
      rewrite Hsort. apply elem_of_cons. by left. }
    split; [done|]. split; [done|]. split; [done|].
    intros r' Hr' Hpage'.
    apply (order_by_head_least _ _ _ _ Hsort). by apply elem_of_filter_page.
Qed.

Lemma Versions_getitem_row (uuid : string) (w : World) (version : Versions.Version) :
  Versions.getitem uuid w = Ok version →
  ∃ r, r ∈ Versions_table w ∧ VERSIONS_COLUMNS.uuid r = uuid ∧ Versions.of_row r = version.
Proof.
  unfold Versions.getitem.
  destruct (find _ (Versions_table w)) as [r|] eqn:Hfind; [|done].
  apply find_some in Hfind as [Hin Heq]. apply String.eqb_eq in Heq.
  intros [= <-]. exists r. by rewrite list_elem_of_In.
Qed.

(** ** The claims about the lineage *)

(** C8, as the code has it.  For a page with at least one Version,
    [oldest] returns a Version of the page whose [capture_time] is the
    least among the page's Versions; for a page with no Version it raises
    [TypeError] (from slicing the missing row). *)
Theorem oldest_least_or_TypeError (page_uuid : string) (w : World) :
  ((∃ r, r ∈ Versions_table w ∧ VERSIONS_COLUMNS.page_uuid r = page_uuid) →
   ∃ r, r ∈ Versions_table w ∧ VERSIONS_COLUMNS.page_uuid r = page_uuid ∧
        Versions.oldest page_uuid w = Ok (Versions.of_row r) ∧
        ∀ r', r' ∈ Versions_table w → VERSIONS_COLUMNS.page_uuid r' = page_uuid →
              (VERSIONS_COLUMNS.capture_time r ≤ VERSIONS_COLUMNS.capture_time r')%Z)
  ∧ ((∀ r, r ∈ Versions_table w → VERSIONS_COLUMNS.page_uuid r ≠ page_uuid) →
     Versions.oldest page_uuid w = Raise TypeError).
Proof.
  destruct (oldest_cases page_uuid w) as [Hsome | [Hnone Hraise]].
  - split; [done|]. intros Hnone.
    destruct Hsome as (r & Hr & Hpage & _). by destruct (Hnone r Hr).
  - split; [|done]. intros (r & Hr & Hpage). by destruct (Hnone r Hr).
Qed.

Lemma oldest_least_or_TypeError_witness :
  (∃ r, r ∈ Versions_table example_world ∧
        VERSIONS_COLUMNS.page_uuid r = "example.gov" ∧
        Versions.oldest "example.gov" example_world = Ok (Versions.of_row r) ∧
        ∀ r', r' ∈ Versions_table example_world →
              VERSIONS_COLUMNS.page_uuid r' = "example.gov" →
              (VERSIONS_COLUMNS.capture_time r ≤ VERSIONS_COLUMNS.capture_time r')%Z)
  ∧ Versions.oldest "example.gov" empty_world = Raise TypeError.
Proof.
  split.
  - apply (oldest_least_or_TypeError "example.gov" example_world).
    exists (VERSIONS_COLUMNS.Row "V2" "example.gov" 10 "/html/v2" "h2" "PageFreezer" JNull 101 101).
    split; [|reflexivity]. apply elem_of_cons. right. apply elem_of_cons. by left.
  - apply (oldest_least_or_TypeError "example.gov" empty_world).
    intros r Hr. by apply elem_of_nil in Hr.
Defined.

(** C8 as stated fails in its second half: for a page without Versions
    [oldest] raises the built-in [TypeError], which is not the
    NotFoundError of the specification (the module has no such class). *)
Lemma oldest_of_unknown_page_raises_TypeError :
  (∀ r, r ∈ Versions_table example_world →
        VERSIONS_COLUMNS.page_uuid r ≠ "other.gov") ∧
  Versions.oldest "other.gov" example_world = Raise TypeError ∧
  kind_of TypeError ≠ Some NotFoundError ∧
  is_WebVersioningException TypeError = false.
Proof.
  split; [|done].
  intros r Hr. unfold example_world, example_versions in Hr. simpl in Hr.
  repeat (apply elem_of_cons in Hr as [->|Hr]; [done|]).
  by apply elem_of_nil in Hr.
Qed.

(** ** Diffs.insert and Diffs.__getitem__ *)

Section Diffs_properties.
Context `{Externals}.

Lemma existsb_fresh_uuid (_uuid : string) (w : World) :
  existsb (fun r => String.eqb (DIFFS_COLUMNS.uuid r) _uuid) (Diffs_table w) = false
  ↔ fresh_uuid _uuid w.
Proof.
  unfold fresh_uuid. split.
  - intros Hex r Hr Heq. apply list_elem_of_In in Hr.
    assert (existsb (fun r => String.eqb (DIFFS_COLUMNS.uuid r) _uuid)
                    (Diffs_table w) = true); [|congruence].
    apply existsb_exists. exists r. split; [done|]. by apply String.eqb_eq.
  - intros Hfresh. apply not_true_is_false. intros Hex.
    apply existsb_exists in Hex as (r & Hr & Heq).
    apply String.eqb_eq in Heq. apply list_elem_of_In in Hr.
    by destruct (Hfresh r Hr).
Qed.

(** Every outcome of [Diffs.insert]: it returns the drawn uuid and leaves
    [with_new_diff], or it raises and leaves the table and the deque as
    they were. *)
Lemma Diffs_insert_outcome _uuid name now version_from version_to result
    source_type source_metadata w :
  let out := Diffs.insert _uuid name now version_from version_to result
               source_type source_metadata w in
  match out.2 with
  | Ok returned =>
      returned = _uuid ∧ fresh_uuid _uuid w ∧ files w !! name = None ∧
      ∃ output diffs, getitem result "output" = Ok output ∧
                      getitem output "diffs" = Ok diffs ∧
                      out.1 = with_new_diff _uuid name now version_from version_to
                                result diffs source_type source_metadata w
  | Raise e =>
      Diffs_table out.1 = Diffs_table w ∧ Diffs_unprocessed out.1 = Diffs_unprocessed w
  end.
Proof.
  unfold Diffs.insert, bind, try, Diffs._get_new_filepath, write_file, modify, ret,
    set_Diffs_unprocessed, set_Diffs_table, set_files.
  destruct (getitem result "output") as [output|e] eqn:Hout; simpl; [|done].
  destruct (getitem output "diffs") as [diffs|e] eqn:Hdiffs; simpl; [|done].
  destruct (files w !! name) eqn:Hname; simpl; [done|].
  destruct (existsb _ (Diffs_table w)) eqn:Hex; simpl; [done|].
  split; [done|]. split; [by apply existsb_fresh_uuid|]. split; [done|].
  exists output, diffs. split; [done|]. split; [done|].
  unfold with_new_diff. by rewrite insert_insert_eq.
Qed.

Lemma Diffs_insert_succeeds _uuid name now version_from version_to result
    source_type source_metadata w output diffs :
  getitem result "output" = Ok output →
  getitem output "diffs" = Ok diffs →
  fresh_uuid _uuid w →
  files w !! name = None →
  Diffs.insert _uuid name now version_from version_to result
               source_type source_metadata w =
    (with_new_diff _uuid name now version_from version_to result diffs
                   source_type source_metadata w, Ok _uuid).
Proof.
  intros Hout Hdiffs Hfresh Hname. apply existsb_fresh_uuid in Hfresh.
  unfold Diffs.insert, bind, try, Diffs._get_new_filepath, write_file, modify, ret.
  rewrite Hout, Hdiffs, Hname. simpl. rewrite Hfresh. simpl.
  unfold with_new_diff, set_Diffs_unprocessed, set_Diffs_table, set_files; simpl.
  by rewrite insert_insert_eq.
Qed.

Lemma find_app_new {A} (f : A → bool) (l : list A) (x : A) :
  existsb f l = false → f x = true → find f (l ++ [x]) = Some x.
Proof.
  induction l as [|y l IH]; simpl; intros Hnone Hx.
  - by rewrite Hx.
  - apply orb_false_iff in Hnone as [-> Hnone]. by apply IH.
Qed.

(** Reading back the Diff just inserted. *)
Lemma Diffs_getitem_new _uuid name now version_from version_to result diffs
    source_type source_metadata w :
  fresh_uuid _uuid w →
  Diffs.getitem _uuid
    (with_new_diff _uuid name now version_from version_to result diffs
                   source_type source_metadata w) =
  match json_loads (json_dumps result) with
  | Some content =>
      Ok (Diffs.nt _uuid version_from version_to (sha256_hexdigest (py_str diffs))
                   name source_type source_metadata content)
  | None => Raise ValueError
  end.
Proof.
  intros Hfresh. apply existsb_fresh_uuid in Hfresh.
  unfold Diffs.getitem, with_new_diff; simpl.
  rewrite (find_app_new _ _ _ Hfresh); [|apply String.eqb_refl].
  unfold read_file; simpl. rewrite lookup_insert_eq.
  by destruct (json_loads (json_dumps result)).
Qed.

End Diffs_properties.

(** C9.  For a payload X that has a diff body [X['output']['diffs']] and
    that [json.load] reads back as written, with a uuid and a file name not
    in use: [Diffs.insert] returns the uuid, and the lookup by that uuid
    yields a record whose content is X and whose diffhash is the SHA-256
    digest of the diff body (of its [str], as the code hashes it). *)
Theorem Diffs_insert_then_getitem `{Externals}
    (_uuid name : string) (now : Z) (version_from version_to : string)
    (X : json) (source_type : string) (source_metadata : json) (w : World)
    (output diffs : json) :
  getitem X "output" = Ok output →
  getitem output "diffs" = Ok diffs →
  json_loads (json_dumps X) = Some X →
  fresh_uuid _uuid w →
  files w !! name = None →
  ∃ w' d,
    Diffs.insert _uuid name now version_from version_to X
                 source_type source_metadata w = (w', Ok _uuid) ∧
    Diffs.getitem _uuid w' = Ok d ∧
    Diffs.content d = X ∧
    Diffs.diffhash d = sha256_hexdigest (py_str diffs) ∧
    Diffs.uuid d = _uuid ∧
    Diffs.version_from d = version_from ∧ Diffs.version_to d = version_to.
Proof.
  intros Hout Hdiffs Hjson Hfresh Hname.
  eexists _, _. split.
  { by apply (Diffs_insert_succeeds _ _ _ _ _ _ _ _ _ output diffs). }
  rewrite Diffs_getitem_new by done. rewrite Hjson. done.
Qed.

Lemma Diffs_insert_then_getitem_witness :
  getitem example_payload "output" =
    Ok (JObj [("diffs", example_diffs); ("ratio", JNum 3)]) ∧
  json_loads (json_dumps example_payload) = Some example_payload ∧
  ∃ w' d,
    Diffs.insert "D1" "/tmp/f1" 200 "V1" "V2" example_payload "PageFreezer" JNull
                 example_world = (w', Ok "D1") ∧
    Diffs.getitem "D1" w' = Ok d ∧
    Diffs.content d = example_payload ∧
    Diffs.diffhash d = sha256_hexdigest (py_str example_diffs) ∧
    Diffs.uuid d = "D1" ∧
    Diffs.version_from d = "V1" ∧ Diffs.version_to d = "V2".
Proof.
  split; [reflexivity|]. split; [vm_compute; reflexivity|].
  apply (Diffs_insert_then_getitem "D1" "/tmp/f1" 200 "V1" "V2" example_payload
           "PageFreezer" JNull example_world
           (JObj [("diffs", example_diffs); ("ratio", JNum 3)]) example_diffs).
  - reflexivity.
  - reflexivity.
  - vm_compute; reflexivity.
  - intros r Hr. by apply elem_of_nil in Hr.
  - vm_compute; reflexivity.
Defined.

(** ** diff_version *)

Section diff_version_properties.
Context `{Externals}.

(** What has happened when [diff_version] returns, and what has not when
    it raises. *)
Lemma diff_version_outcome _uuid name now version_uuid source_type source_metadata
    (w w' : World) (r : result (option string)) :
  diff_version _uuid name now version_uuid source_type source_metadata w = (w', r) →
  match r with
  | Ok returned =>
      returned = None ∧
      ∃ version ancestor html1 html2 response payload output diffs,
        Versions.getitem version_uuid w = Ok version ∧
        Versions.oldest (Versions.page_uuid version) w = Ok ancestor ∧
        ancestor ≠ version ∧
        read_file (Versions.uri ancestor) w = Ok html1 ∧
        read_file (Versions.uri version) w = Ok html2 ∧
        compare html1 html2 w = Ok response ∧
        getitem response "status" = Ok (JStr "ok") ∧
        getitem response "result" = Ok payload ∧
        getitem payload "output" = Ok output ∧
        getitem output "diffs" = Ok diffs ∧
        fresh_uuid _uuid w ∧ files w !! name = None ∧
        w' = with_new_diff _uuid name now (Versions.uuid ancestor)
               (Versions.uuid version) payload diffs source_type source_metadata w
  | Raise e =>
      Diffs_table w' = Diffs_table w ∧ Diffs_unprocessed w' = Diffs_unprocessed w
  end.
Proof.
  unfold diff_version, bind, reading, try, raise, ret.
  destruct (Versions.getitem version_uuid w) as [version|e] eqn:Hversion;
    [|by intros [= <- <-]].
  destruct (Versions.oldest _ w) as [ancestor|e] eqn:Hancestor;
    [|by intros [= <- <-]].
  destruct (Versions.eqb ancestor version) eqn:Heqb; [by intros [= <- <-]|].
  destruct (read_file (Versions.uri ancestor) w) as [html1|e] eqn:Hhtml1;
    [|by intros [= <- <-]].
  destruct (read_file (Versions.uri version) w) as [html2|e] eqn:Hhtml2;
    [|by intros [= <- <-]].
  destruct (compare html1 html2 w) as [response|e] eqn:Hcompare;
    [|by intros [= <- <-]].
  destruct (getitem response "status") as [status|e] eqn:Hstatus;
    [|by intros [= <- <-]].
  destruct (json_eqb status (JStr "ok")) eqn:Hok; simpl; [|by intros [= <- <-]].
  apply json_eqb_eq in Hok. subst status.
  destruct (getitem response "result") as [payload|e] eqn:Hpayload;
    [|by intros [= <- <-]].
  pose proof (Diffs_insert_outcome _uuid name now (Versions.uuid ancestor)
                (Versions.uuid version) payload source_type source_metadata w) as Hins.
  simpl in Hins.
  destruct (Diffs.insert _ _ _ _ _ _ _ _ w) as [w1 [returned|e]]; simpl in Hins.
  - intros [= <- <-]. split; [done|].
    destruct Hins as (_ & Hfresh & Hname & output & diffs & Hout & Hdiffs & ->).
    exists version, ancestor, html1, html2, response, payload, output, diffs.
    repeat (split; [done|]). split; [|done].
    intros ->. by rewrite Versions_eqb_refl in Heqb.
  - by intros [= <- <-].
Qed.

(** The successful run. *)
Lemma diff_version_succeeds _uuid name now version_uuid source_type source_metadata
    (w : World) version ancestor html1 html2 response payload output diffs :
  Versions.getitem version_uuid w = Ok version →
  Versions.oldest (Versions.page_uuid version) w = Ok ancestor →
  ancestor ≠ version →
  read_file (Versions.uri ancestor) w = Ok html1 →
  read_file (Versions.uri version) w = Ok html2 →
  compare html1 html2 w = Ok response →
  getitem response "status" = Ok (JStr "ok") →
  getitem response "result" = Ok payload →
  getitem payload "output" = Ok output →
  getitem output "diffs" = Ok diffs →
  fresh_uuid _uuid w →
  files w !! name = None →
  diff_version _uuid name now version_uuid source_type source_metadata w =
    (with_new_diff _uuid name now (Versions.uuid ancestor) (Versions.uuid version)
                   payload diffs source_type source_metadata w, Ok None).
Proof.
  intros Hversion Hancestor Hne Hhtml1 Hhtml2 Hcompare Hstatus Hpayload Hout
         Hdiffs Hfresh Hname.
  unfold diff_version, bind, reading, try, raise, ret.
  rewrite Hversion, Hancestor, (Versions_eqb_neq _ _ Hne), Hhtml1, Hhtml2, Hcompare,
    Hstatus.
  simpl. rewrite Hpayload.
  by rewrite (Diffs_insert_succeeds _ _ _ _ _ _ _ _ _ output diffs).
Qed.

(** The run on the Version that [oldest] resolves. *)
Lemma diff_version_of_oldest _uuid name now version_uuid source_type source_metadata
    (w : World) version :
  Versions.getitem version_uuid w = Ok version →
  Versions.oldest (Versions.page_uuid version) w = Ok version →
  diff_version _uuid name now version_uuid source_type source_metadata w =
    (w, Raise NoAncestor).
Proof.
  intros Hversion Hancestor.
  unfold diff_version, bind, reading, try, raise, ret.
  by rewrite Hversion, Hancestor, Versions_eqb_refl.
Qed.

End diff_version_properties.

(** A Version strictly older than every other Version of its page is the
    one [oldest] returns. *)
Lemma oldest_of_strictly_oldest (version_uuid : string) (w : World)
    (version : Versions.Version) :
  Versions.getitem version_uuid w = Ok version →
  (∀ r, r ∈ Versions_table w →
        VERSIONS_COLUMNS.page_uuid r = Versions.page_uuid version →
        Versions.of_row r = version ∨
        (Versions.capture_time version < VERSIONS_COLUMNS.capture_time r)%Z) →
  Versions.oldest (Versions.page_uuid version) w = Ok version.
Proof.
  intros Hversion Hstrict.
  apply Versions_getitem_row in Hversion as (r0 & Hr0 & _ & Hrow0).
  assert (VERSIONS_COLUMNS.page_uuid r0 = Versions.page_uuid version) as Hpage0
    by by rewrite <- Hrow0.
  destruct (oldest_cases (Versions.page_uuid version) w)
    as [(r & Hr & Hpage & -> & Hleast) | [Hnone _]].
  - destruct (Hstrict r Hr Hpage) as [->|Hlater]; [done|].
    specialize (Hleast r0 Hr0 Hpage0).
    assert (VERSIONS_COLUMNS.capture_time r0 = Versions.capture_time version)
      by by rewrite <- Hrow0.
    lia.
  - by destruct (Hnone r0 Hr0).
Qed.

Lemma Diffs_getitem_not_EmptyWorkQueue `{Externals} (uuid : string) (w : World) :
  Diffs.getitem uuid w ≠ Raise EmptyWorkQueue.
Proof.
  unfold Diffs.getitem, read_file.
  destruct (find _ (Diffs_table w)); [|done].
  simpl. destruct (files w !! _); [|done].
  by destruct (json_loads _).
Qed.

(** ** The claims about the diff pipeline *)

(** C4, as the code has it.  When every other Version of the page is
    strictly newer than V, [diff_version(V)] raises [NoAncestor] and leaves
    the world as it was: no Diff record, no file, nothing enqueued. *)
Theorem diff_version_of_strictly_oldest `{Externals}
    (_uuid name : string) (now : Z) (version_uuid source_type : string)
    (source_metadata : json) (w : World) (version : Versions.Version) :
  Versions.getitem version_uuid w = Ok version →
  (∀ r, r ∈ Versions_table w →
        VERSIONS_COLUMNS.page_uuid r = Versions.page_uuid version →
        Versions.of_row r = version ∨
        (Versions.capture_time version < VERSIONS_COLUMNS.capture_time r)%Z) →
  diff_version _uuid name now version_uuid source_type source_metadata w =
    (w, Raise NoAncestor).
Proof.
  intros Hversion Hstrict. apply (diff_version_of_oldest _ _ _ _ _ _ _ version).
  - done.
  - by apply (oldest_of_strictly_oldest version_uuid).
Qed.

Lemma diff_version_of_strictly_oldest_witness :
  Versions.getitem "V1" example_world =
    Ok (Versions.nt "V1" "example.gov" 0 "/html/v1" "h1" "PageFreezer" JNull) ∧
  diff_version "D1" "/tmp/f1" 200 "V1" "PageFreezer" JNull example_world =
    (example_world, Raise NoAncestor).
Proof.
  split; [reflexivity|].
  apply (diff_version_of_strictly_oldest "D1" "/tmp/f1" 200 "V1" "PageFreezer" JNull
           example_world
           (Versions.nt "V1" "example.gov" 0 "/html/v1" "h1" "PageFreezer" JNull)).
  - reflexivity.
  - intros r Hr _. unfold example_world, example_versions in Hr. simpl in Hr.
    apply elem_of_cons in Hr as [->|Hr]; [by left|].
    apply elem_of_cons in Hr as [->|Hr]; [right; simpl; lia|].
    apply elem_of_cons in Hr as [->|Hr]; [right; simpl; lia|].
    by apply elem_of_nil in Hr.
Defined.

(** C4 as stated fails when two Versions of a page share the least
    [capture_time]: neither has a strictly older Version, [oldest] returns
    the one inserted first, and [diff_version] of the other one inserts a
    Diff instead of raising [NoAncestor].  With the rows in the other order
    the roles are exchanged. *)
Lemma diff_version_of_tied_baseline :
  (∀ r r', r ∈ tied_versions → r' ∈ tied_versions →
           ¬ (VERSIONS_COLUMNS.capture_time r' < VERSIONS_COLUMNS.capture_time r)%Z) ∧
  (let out := diff_version "D1" "/tmp/f1" 200 "V2" "PageFreezer" JNull tied_world in
   out.2 = Ok None ∧
   map (fun r => (DIFFS_COLUMNS.version_from r, DIFFS_COLUMNS.version_to r))
       (Diffs_table out.1) = [("V1", "V2")]) ∧
  (let out := diff_version "D1" "/tmp/f1" 200 "V1" "PageFreezer" JNull
                tied_world_swapped in
   out.2 = Ok None ∧
   map (fun r => (DIFFS_COLUMNS.version_from r, DIFFS_COLUMNS.version_to r))
       (Diffs_table out.1) = [("V2", "V1")]).
Proof.
  split; [|split; split; vm_compute; reflexivity].
  intros r r' Hr Hr'. unfold tied_versions in *.
  repeat (apply elem_of_cons in Hr as [->|Hr]);
    repeat (apply elem_of_cons in Hr' as [->|Hr']); simpl;
    try lia; by (apply elem_of_nil in Hr || apply elem_of_nil in Hr').
Qed.

(** C3, as the code has it.  For a Version V that is not the one [oldest]
    returns for its page: when both payloads are readable and the
    comparison answers with status ['ok'] and a result holding a diff body
    (and the drawn uuid and file name are not in use), [diff_version(V)]
    appends exactly one row to Diffs, from the oldest Version of the page
    to V, and returns [None]; and whatever the circumstances, a run that
    does not raise has returned [None] after appending exactly that one
    row, while a run that raises has left the Diffs table as it was. *)
Theorem diff_version_appends_one_row `{Externals}
    (_uuid name : string) (now : Z) (version_uuid source_type : string)
    (source_metadata : json) (w : World) (version ancestor : Versions.Version) :
  Versions.getitem version_uuid w = Ok version →
  Versions.oldest (Versions.page_uuid version) w = Ok ancestor →
  ancestor ≠ version →
  (∀ html1 html2 response payload output diffs,
     read_file (Versions.uri ancestor) w = Ok html1 →
     read_file (Versions.uri version) w = Ok html2 →
     compare html1 html2 w = Ok response →
     getitem response "status" = Ok (JStr "ok") →
     getitem response "result" = Ok payload →
     getitem payload "output" = Ok output →
     getitem output "diffs" = Ok diffs →
     fresh_uuid _uuid w →
     files w !! name = None →
     ∃ w', diff_version _uuid name now version_uuid source_type source_metadata w =
             (w', Ok None) ∧
           Diffs_table w' =
             Diffs_table w ++
               [DIFFS_COLUMNS.Row _uuid (Versions.uuid ancestor) (Versions.uuid version)
                  (sha256_hexdigest (py_str diffs)) name source_type
                  source_metadata now now])
  ∧ (∀ w' r,
       diff_version _uuid name now version_uuid source_type source_metadata w = (w', r) →
       match r with
       | Ok returned =>
           returned = None ∧
           ∃ row, Diffs_table w' = Diffs_table w ++ [row] ∧
                  DIFFS_COLUMNS.uuid row = _uuid ∧
                  DIFFS_COLUMNS.version_from row = Versions.uuid ancestor ∧
                  DIFFS_COLUMNS.version_to row = Versions.uuid version
       | Raise e => Diffs_table w' = Diffs_table w
       end).
Proof.
  intros Hversion Hancestor Hne. split.
  - intros html1 html2 response payload output diffs Hhtml1 Hhtml2 Hcompare
           Hstatus Hpayload Hout Hdiffs Hfresh Hname.
    eexists. split.
    + by apply (diff_version_succeeds _ _ _ _ _ _ _ version ancestor html1 html2
                  response payload output diffs).
    + done.
  - intros w' r Hrun. apply diff_version_outcome in Hrun.
    destruct r as [returned|e]; [|by destruct Hrun].
    destruct Hrun as (-> & version' & ancestor' & html1 & html2 & response &
                      payload & output & diffs & Hversion' & Hancestor' & _ &
                      _ & _ & _ & _ & _ & _ & _ & _ & _ & ->).
    split; [done|].
    rewrite Hversion in Hversion'. injection Hversion' as <-.
    rewrite Hancestor in Hancestor'. injection Hancestor' as <-.
    eexists. split; [reflexivity|]. done.
Qed.

Lemma diff_version_appends_one_row_witness :
  ∃ w', diff_version "D1" "/tmp/f1" 200 "V2" "PageFreezer" JNull example_world =
          (w', Ok None) ∧
        Diffs_table w' =
          [DIFFS_COLUMNS.Row "D1" "V1" "V2" (sha256_hexdigest (py_str example_diffs))
             "/tmp/f1" "PageFreezer" JNull 200 200].
Proof.
  pose (version := Versions.nt "V2" "example.gov" 10 "/html/v2" "h2" "PageFreezer" JNull).
  pose (ancestor := Versions.nt "V1" "example.gov" 0 "/html/v1" "h1" "PageFreezer" JNull).
  assert (ancestor ≠ version) as Hne by (intros Heq; discriminate Heq).
  destruct (diff_version_appends_one_row "D1" "/tmp/f1" 200 "V2" "PageFreezer" JNull
              example_world version ancestor eq_refl eq_refl Hne) as [Hgood _].
  apply (Hgood "<p>a</p>" "<p>b</p>" example_response example_payload
           (JObj [("diffs", example_diffs); ("ratio", JNum 3)]) example_diffs).
  - vm_compute; reflexivity.
  - vm_compute; reflexivity.
  - vm_compute; reflexivity.
  - reflexivity.
  - reflexivity.
  - reflexivity.
  - reflexivity.
  - intros r Hr. by apply elem_of_nil in Hr.
  - vm_compute; reflexivity.
Defined.

(** C3 as stated fails in what is returned: in the scenario of the
    specification, [diff_version(V2)] creates the Diff D1 and returns
    [None], not the identity D1. *)
Lemma diff_version_returns_None :
  let out := diff_version "D1" "/tmp/f1" 200 "V2" "PageFreezer" JNull example_world in
  map DIFFS_COLUMNS.uuid (Diffs_table out.1) = ["D1"] ∧
  out.2 = Ok None ∧
  out.2 ≠ Ok (Some "D1").
Proof.
  assert ((diff_version "D1" "/tmp/f1" 200 "V2" "PageFreezer" JNull example_world).2
          = Ok None) as Hret by (vm_compute; reflexivity).
  split; [vm_compute; reflexivity|]. split; [exact Hret|].
  simpl. rewrite Hret. discriminate.
Qed.

(** C5.  A run of [diff_version] that does not raise has appended the uuid
    of the new Diff to [Diffs.unprocessed].  A WorkQueue whose priorities
    are that deque (or a list with its content) and in which nobody holds
    the new Diff does not raise [EmptyWorkQueue] on [checkout_next]; and
    once every identity enqueued before is held, [checkout_next] records
    the caller for the new Diff and returns the lookup of it: the stored
    record with the content of the payload file, which holds the dumped
    payload. *)
Theorem diff_version_enqueues `{Externals}
    (_uuid name : string) (now : Z) (version_uuid source_type : string)
    (source_metadata : json) (w w' : World) (returned : option string) :
  diff_version _uuid name now version_uuid source_type source_metadata w =
    (w', Ok returned) →
  Diffs_unprocessed w' = Diffs_unprocessed w ++ [_uuid] ∧
  ∀ (user_id : string) (self : WorkQueue.t),
    WorkQueue.iterate (WorkQueue.priorities self) w' = Diffs_unprocessed w' →
    ¬ claimed (WorkQueue.checked_out self) _uuid →
    (WorkQueue.checkout_next user_id self w').2 ≠ Raise EmptyWorkQueue ∧
    ((∀ d, d ∈ Diffs_unprocessed w → claimed (WorkQueue.checked_out self) d) →
     WorkQueue.checkout_next user_id self w' =
       (WorkQueue.mk (WorkQueue.priorities self)
                     (<[user_id := _uuid]> (WorkQueue.checked_out self)),
        Diffs.getitem _uuid w') ∧
     ∃ payload,
       files w' !! name = Some (json_dumps payload) ∧
       ∀ content, json_loads (json_dumps payload) = Some content →
                  ∃ diff, Diffs.getitem _uuid w' = Ok diff ∧
                          Diffs.uuid diff = _uuid ∧
                          Diffs.content diff = content).
Proof.
  intros Hrun. apply diff_version_outcome in Hrun.
  destruct Hrun as (_ & version & ancestor & html1 & html2 & response & payload &
                    output & diffs & _ & _ & _ & _ & _ & _ & _ & _ & _ & _ &
                    Hfresh & _ & ->).
  split; [done|]. intros user_id self Hpriorities Hfree.
  set (w' := with_new_diff _ _ _ _ _ _ _ _ _ w) in *.
  assert (Diffs_unprocessed w' = Diffs_unprocessed w ++ [_uuid]) as Hqueue by done.
  unfold WorkQueue.checkout_next. rewrite Hpriorities, Hqueue.
  destruct (checkout_next_loop_spec user_id self w' (Diffs_unprocessed w ++ [_uuid]))
    as [(i & d & Hfirst & Heq) | [Hall Heq]].
  - rewrite Heq. simpl. split; [apply Diffs_getitem_not_EmptyWorkQueue|].
    intros Hheld.
    assert (first_unclaimed (Diffs_unprocessed w ++ [_uuid])
              (WorkQueue.checked_out self) (length (Diffs_unprocessed w)) _uuid)
      as Hnew.
    { split; [by apply list_lookup_middle|]. split; [done|].
      intros j d' Hj Hd'. rewrite lookup_app_l in Hd' by done.
      apply Hheld. by apply list_elem_of_lookup_2 in Hd'. }
    destruct (first_unclaimed_unique _ _ _ _ _ _ Hfirst Hnew) as [_ ->].
    split; [done|]. exists payload. split.
    + unfold w', with_new_diff; simpl. apply lookup_insert_eq.
    + intros content Hcontent. unfold w'.
      rewrite Diffs_getitem_new by done. rewrite Hcontent. by eexists.
  - destruct Hfree. apply Hall. apply elem_of_app. right.
    by apply list_elem_of_singleton.
Qed.

(** After [diff_version(V2)] in the scenario of the specification, a fresh
    WorkQueue over [Diffs.unprocessed] hands D1 to alice. *)
Lemma diff_version_enqueues_witness :
  ∃ w', diff_version "D1" "/tmp/f1" 200 "V2" "PageFreezer" JNull example_world =
          (w', Ok None) ∧
        Diffs_unprocessed w' = ["D1"] ∧
        WorkQueue.checkout_next "alice"
            (WorkQueue.init WorkQueue.Diffs_unprocessed_deque) w' =
          (WorkQueue.mk WorkQueue.Diffs_unprocessed_deque (<["alice" := "D1"]> ∅),
           Diffs.getitem "D1" w') ∧
        ∃ diff, Diffs.getitem "D1" w' = Ok diff ∧ Diffs.uuid diff = "D1" ∧
                Diffs.content diff = example_payload.
Proof.
  pose (out := diff_version "D1" "/tmp/f1" 200 "V2" "PageFreezer" JNull example_world).
  assert (out = (out.1, Ok None)) as Hrun by (vm_compute; reflexivity).
  exists out.1. split; [exact Hrun|].
  destruct (diff_version_enqueues "D1" "/tmp/f1" 200 "V2" "PageFreezer" JNull
              example_world out.1 None Hrun) as [Hqueue Hhand].
  split; [exact Hqueue|].
  assert (¬ claimed (∅ : gmap string string) "D1") as Hfree.
  { intros [u Hu]. by rewrite lookup_empty in Hu. }
  destruct (Hhand "alice" (WorkQueue.init WorkQueue.Diffs_unprocessed_deque)
              eq_refl Hfree) as [_ Hturn].
  destruct Hturn as (Hnext & payload & Hfile & Hread).
  { intros d Hd. by apply elem_of_nil in Hd. }
  split; [exact Hnext|].
  assert (files out.1 !! "/tmp/f1" = Some (json_dumps example_payload)) as Hfile'
    by (vm_compute; reflexivity).
  assert (json_dumps payload = json_dumps example_payload) as Hdump by congruence.
  apply (Hread example_payload). rewrite Hdump. vm_compute; reflexivity.
Defined.

(** ** The claims about the annotations *)

(** What [by_change] selects: the clause handed to [where] is the first
    operand of the [and], so only [version_from] is compared. *)
Lemma by_change_filters_version_from (version_from version_to : string) (w : World) :
  Annotations.by_change version_from version_to w =
    map Annotations.of_row
      (List.filter
         (fun r => String.eqb (ANNOTATIONS_COLUMNS.version_from r) version_from)
         (Annotations_table w)).
Proof. reflexivity. Qed.

(** C6 at a failing input.  With one Annotation stored for the change from
    V1 to V2, [by_change("V1", "V3")] returns that Annotation, whose
    [version_to] is not V3. *)
Theorem by_change_ignores_version_to :
  let w := (Annotations.insert "A1" 5 "V1" "V2" (JObj [("significant", JBool true)])
              "alice" empty_world).1 in
  map ANNOTATIONS_COLUMNS.version_to (Annotations_table w) = ["V2"] ∧
  ∃ a, Annotations.by_change "V1" "V3" w = [a] ∧
       Annotations.uuid a = "A1" ∧
       Annotations.version_from a = "V1" ∧
       Annotations.version_to a = "V2".
Proof. simpl. split; [reflexivity|]. eexists. split; [reflexivity|]. done. Qed.

(** What [Annotations.insert] stores under a uuid not in use: the clock
    reading in the [author] column, whatever [author] was passed. *)
Lemma Annotations_insert_then_getitem (_uuid : string) (now : Z)
    (version_from version_to : string) (annotation : json) (author : string)
    (w : World) :
  (∀ r, r ∈ Annotations_table w → ANNOTATIONS_COLUMNS.uuid r ≠ _uuid) →
  ∃ w', Annotations.insert _uuid now version_from version_to annotation author w =
          (w', Ok _uuid) ∧
        Annotations.getitem _uuid w' =
          Ok (Annotations.nt _uuid version_from version_to annotation (DateTime now)).
Proof.
  intros Hfresh.
  assert (existsb (fun r => String.eqb (ANNOTATIONS_COLUMNS.uuid r) _uuid)
                  (Annotations_table w) = false) as Hex.
  { apply not_true_is_false. intros Hex.
    apply existsb_exists in Hex as (r & Hr & Heq).
    apply String.eqb_eq in Heq. apply list_elem_of_In in Hr.
    by destruct (Hfresh r Hr). }
  unfold Annotations.insert, bind, ret. rewrite Hex. simpl.
  eexists. split; [reflexivity|].
  unfold Annotations.getitem, set_Annotations_table; simpl.
  rewrite (find_app_new _ _ _ Hex); [done|apply String.eqb_refl].
Qed.

(** C7 at a failing input.  [insert("V1", "V2", judgment, "alice")] on an
    empty table returns the new uuid, and the record read back by that
    uuid carries the clock reading as its author, not "alice". *)
Theorem Annotations_insert_drops_author :
  let out := Annotations.insert "A1" 5 "V1" "V2" (JObj [("significant", JBool true)])
               "alice" empty_world in
  out.2 = Ok "A1" ∧
  ∃ a, Annotations.getitem "A1" out.1 = Ok a ∧
       Annotations.author a = DateTime 5 ∧
       Annotations.author a ≠ Text "alice".
Proof. simpl. split; [reflexivity|]. eexists. split; [reflexivity|]. done. Qed.

(** * Further properties of the module *)

(** ** The work queue: how the calls compose *)

Lemma WorkQueue_eta (self : WorkQueue.t) :
  WorkQueue.mk (WorkQueue.priorities self) (WorkQueue.checked_out self) = self.
Proof. by destruct self. Qed.

(** X1.  A reviewer who holds nothing and is handed a Diff by
    [checkout_next] gives it back with [checkin]: the queue is exactly as
    before, so the next [checkout_next], by whichever reviewer, is handed
    the same Diff; and a second [checkin] raises [KeyError]. *)
Theorem checkout_next_then_checkin `{Externals}
    (user_id : string) (self : WorkQueue.t) (w : World) (i : nat) (d : string) :
  WorkQueue.checked_out self !! user_id = None →
  first_unclaimed (WorkQueue.iterate (WorkQueue.priorities self) w)
                  (WorkQueue.checked_out self) i d →
  let held := (WorkQueue.checkout_next user_id self w).1 in
  WorkQueue.checked_out held !! user_id = Some d ∧
  WorkQueue.checkin user_id held = (self, Ok tt) ∧
  WorkQueue.checkin user_id self = (self, Raise KeyError) ∧
  ∀ other,
    WorkQueue.checkout_next other (WorkQueue.checkin user_id held).1 w =
      (WorkQueue.mk (WorkQueue.priorities self)
                    (<[other := d]> (WorkQueue.checked_out self)),
       Diffs.getitem d w).
Proof.
  intros Hnone Hfirst held.
  assert (∀ other, WorkQueue.checkout_next other self w =
            (WorkQueue.mk (WorkQueue.priorities self)
                          (<[other := d]> (WorkQueue.checked_out self)),
             Diffs.getitem d w)) as Hnext.
  { intros other. unfold WorkQueue.checkout_next.
    destruct (checkout_next_loop_spec other self w
                (WorkQueue.iterate (WorkQueue.priorities self) w))
      as [(i' & d' & Hfirst' & Heq) | (Hall & _)].
    - by destruct (first_unclaimed_unique _ _ _ _ _ _ Hfirst Hfirst') as [_ <-].
    - destruct Hfirst as (Hi & Hfree & _). destruct Hfree. apply Hall.
      by apply list_elem_of_lookup_2 in Hi. }
  assert (WorkQueue.checkin user_id held = (self, Ok tt)) as Hback.
  { unfold held. rewrite Hnext. unfold WorkQueue.checkin. simpl.
    rewrite lookup_insert_eq, delete_insert_eq, delete_id by done.
    by rewrite WorkQueue_eta. }
  split; [unfold held; rewrite Hnext; apply lookup_insert_eq|].
  split; [done|]. split.
  - unfold WorkQueue.checkin. by rewrite Hnone.
  - intros other. rewrite Hback. apply Hnext.
Qed.

Lemma checkout_next_then_checkin_witness :
  let self := WorkQueue.init (WorkQueue.a_list ["D1"; "D2"]) in
  let held := (WorkQueue.checkout_next "alice" self empty_world).1 in
  WorkQueue.checked_out held !! "alice" = Some "D1" ∧
  WorkQueue.checkin "alice" held = (self, Ok tt) ∧
  WorkQueue.checkin "alice" self = (self, Raise KeyError) ∧
  ∀ other,
    WorkQueue.checkout_next other (WorkQueue.checkin "alice" held).1 empty_world =
      (WorkQueue.mk (WorkQueue.a_list ["D1"; "D2"]) (<[other := "D1"]> ∅),
       Diffs.getitem "D1" empty_world).
Proof.
  apply (checkout_next_then_checkin "alice"
           (WorkQueue.init (WorkQueue.a_list ["D1"; "D2"])) empty_world 0 "D1").
  - apply lookup_empty.
  - split; [reflexivity|]. split.
    + intros [u Hu]. simpl in Hu. by rewrite lookup_empty in Hu.
    + intros j d' Hj. lia.
Defined.

(** X2.  A reviewer holds one Diff at a time: [checkout] of another Diff,
    and likewise [checkout_next] by a reviewer who still holds one, drops
    the Diff held before without a [checkin]; when nobody else held it,
    it is unclaimed afterwards. *)
Theorem previous_claim_is_released `{Externals}
    (user_id : string) (self : WorkQueue.t) (w : World) (d0 : string) :
  single_claimant (WorkQueue.checked_out self) →
  WorkQueue.checked_out self !! user_id = Some d0 →
  (∀ d, d ≠ d0 →
        ¬ claimed (WorkQueue.checked_out (WorkQueue.checkout user_id d self w).1) d0)
  ∧ (∀ i d, first_unclaimed (WorkQueue.iterate (WorkQueue.priorities self) w)
                            (WorkQueue.checked_out self) i d →
            WorkQueue.checked_out (WorkQueue.checkout_next user_id self w).1
              !! user_id = Some d ∧
            ¬ claimed (WorkQueue.checked_out
                         (WorkQueue.checkout_next user_id self w).1) d0).
Proof.
  intros Hone Hheld.
  assert (∀ d, d ≠ d0 →
            ¬ claimed (<[user_id := d]> (WorkQueue.checked_out self)) d0) as Hgone.
  { intros d Hne [u Hu].
    apply lookup_insert_Some in Hu as [[_ ?]|[Hother Hu]]; [done|].
    destruct Hother. by apply (Hone user_id u d0). }
  split.
  - intros d Hne. rewrite checkout_checked_out. by apply Hgone.
  - intros i d Hfirst. unfold WorkQueue.checkout_next.
    destruct (checkout_next_loop_spec user_id self w
                (WorkQueue.iterate (WorkQueue.priorities self) w))
      as [(i' & d' & Hfirst' & Heq) | (Hall & _)].
    + destruct (first_unclaimed_unique _ _ _ _ _ _ Hfirst Hfirst') as [_ <-].
      rewrite Heq. simpl. split; [apply lookup_insert_eq|].
      apply Hgone. intros ->. destruct Hfirst as (_ & Hfree & _).
      destruct Hfree. by exists user_id.
    + destruct Hfirst as (Hi & Hfree & _). destruct Hfree. apply Hall.
      by apply list_elem_of_lookup_2 in Hi.
Qed.

(** alice holds D1; after [checkout("alice", "D2")] nobody holds D1. *)
Lemma previous_claim_is_released_witness :
  let self := WorkQueue.mk (WorkQueue.a_list ["D1"; "D2"]) {[ "alice" := "D1" ]} in
  ¬ claimed (WorkQueue.checked_out
               (WorkQueue.checkout "alice" "D2" self empty_world).1) "D1" ∧
  WorkQueue.checked_out (WorkQueue.checkout_next "alice" self empty_world).1
    !! "alice" = Some "D2" ∧
  ¬ claimed (WorkQueue.checked_out
               (WorkQueue.checkout_next "alice" self empty_world).1) "D1".
Proof.
  intros self.
  assert (single_claimant (WorkQueue.checked_out self)) as Hone.
  { intros u1 u2 d H1 H2. simpl in H1, H2.
    apply lookup_singleton_Some in H1 as [<- _].
    by apply lookup_singleton_Some in H2 as [<- _]. }
  assert (WorkQueue.checked_out self !! "alice" = Some "D1") as Hheld
    by apply lookup_singleton_eq.
  destruct (previous_claim_is_released "alice" self empty_world "D1" Hone Hheld)
    as [Hout Hnext].
  split; [by apply Hout|].
  apply (Hnext 1%nat "D2"). split; [reflexivity|]. split.
  - intros [u Hu]. simpl in Hu. by apply lookup_singleton_Some in Hu as [_ ?].
  - intros [|j] d' Hj Hd'; [|lia]. injection Hd' as <-.
    exists "alice". apply lookup_singleton_eq.
Defined.

Lemma first_unclaimed_after_held (pre rest : list string) (d : string)
    (m : gmap string string) :
  NoDup (pre ++ d :: rest) →
  (∀ x, claimed m x ↔ x ∈ pre) →
  first_unclaimed (pre ++ d :: rest) m (length pre) d.
Proof.
  intros Hnodup Hheld. split; [by apply list_lookup_middle|]. split.
  - rewrite Hheld. apply NoDup_app in Hnodup as (_ & Hdisjoint & _).
    intros Hin. apply (Hdisjoint d Hin). by left.
  - intros j d' Hj Hd'. rewrite lookup_app_l in Hd' by done.
    apply Hheld. by apply list_elem_of_lookup_2 in Hd'.
Qed.

Lemma run_each_checkout_next `{Externals} (w : World) (users : list string) :
  ∀ (pre rest : list string) (self : WorkQueue.t),
    WorkQueue.iterate (WorkQueue.priorities self) w = pre ++ rest →
    NoDup (pre ++ rest) → NoDup users → length users ≤ length rest →
    (∀ x, claimed (WorkQueue.checked_out self) x ↔ x ∈ pre) →
    (∀ u, u ∈ users → WorkQueue.checked_out self !! u = None) →
    WorkQueue.checked_out (WorkQueue.run w self (each_checkout_next users)) =
      list_to_map (zip users rest) ∪ WorkQueue.checked_out self.
Proof.
  induction users as [|u users IH]; intros pre rest self Hiter Hnodup Husers Hlen
    Hheld Hfresh.
  - simpl. by rewrite (left_id_L ∅ (∪)).
  - destruct rest as [|d rest]; [simpl in Hlen; lia|].
    apply NoDup_cons in Husers as [Hu Husers].
    pose proof (first_unclaimed_after_held pre rest d _ Hnodup Hheld) as Hfirst.
    assert (WorkQueue.after w self (WorkQueue.Checkout_next u) =
            WorkQueue.mk (WorkQueue.priorities self)
                         (<[u := d]> (WorkQueue.checked_out self))) as Hstep.
    { simpl. unfold WorkQueue.checkout_next. rewrite Hiter.
      destruct (checkout_next_loop_spec u self w (pre ++ d :: rest))
        as [(i' & d' & Hfirst' & Heq) | (Hall & _)].
      - destruct (first_unclaimed_unique _ _ _ _ _ _ Hfirst Hfirst') as [_ <-].
        by rewrite Heq.
      - destruct Hfirst as (Hi & Hfree & _). destruct Hfree. apply Hall.
        by apply list_elem_of_lookup_2 in Hi. }
    assert (WorkQueue.checked_out self !! u = None) as Hunone
      by (apply Hfresh; by left).
    change (WorkQueue.run w self (each_checkout_next (u :: users)))
      with (WorkQueue.run w (WorkQueue.after w self (WorkQueue.Checkout_next u))
                          (each_checkout_next users)).
    rewrite Hstep. rewrite (IH (pre ++ [d]) rest); simpl.
    + rewrite <- insert_union_r, insert_union_l; [done|].
      apply not_elem_of_list_to_map_1. intros Hin.
      apply list_elem_of_fmap in Hin as ([u' d'] & -> & Hin).
      apply elem_of_zip_l in Hin. done.
    + by rewrite <- app_assoc.
    + by rewrite <- app_assoc.
    + done.
    + simpl in Hlen. lia.
    + intros x. rewrite elem_of_app, list_elem_of_singleton, <- Hheld. split.
      * intros [u' Hu']. apply lookup_insert_Some in Hu' as [[_ <-]|[_ Hu']].
        -- by right.
        -- left. by exists u'.
      * intros [[u' Hu'] | ->].
        -- exists u'. rewrite lookup_insert_ne; [done|]. intros <-. congruence.
        -- exists u. apply lookup_insert_eq.
    + intros u' Hu'. rewrite lookup_insert_ne.
      * apply Hfresh. by right.
      * intros <-. done.
Qed.

(** X3.  From a fresh WorkQueue whose priority list has no repetition,
    [checkout_next] by distinct reviewers, no more of them than there are
    Diffs, hands the Diffs out in priority order: the first reviewer holds
    the first Diff, the second the second, and so on, and nobody else holds
    anything. *)
Theorem checkout_next_in_priority_order `{Externals}
    (w : World) (priorities : list string) (users : list string) :
  NoDup priorities → NoDup users → length users ≤ length priorities →
  WorkQueue.checked_out
    (WorkQueue.run w (WorkQueue.init (WorkQueue.a_list priorities))
                   (each_checkout_next users)) =
    list_to_map (zip users priorities).
Proof.
  intros Hnodup Husers Hlen.
  rewrite (run_each_checkout_next w users [] priorities); simpl; try done.
  - by rewrite (right_id_L ∅ (∪)).
  - intros x. split.
    + intros [u Hu]. by rewrite lookup_empty in Hu.
    + intros Hx. by apply elem_of_nil in Hx.
Qed.

Lemma checkout_next_in_priority_order_witness :
  WorkQueue.checked_out
    (WorkQueue.run empty_world (WorkQueue.init (WorkQueue.a_list ["D1"; "D2"; "D3"]))
                   (each_checkout_next ["alice"; "bob"])) =
    list_to_map (zip ["alice"; "bob"] ["D1"; "D2"; "D3"]).
Proof.
  apply (checkout_next_in_priority_order empty_world ["D1"; "D2"; "D3"] ["alice"; "bob"]).
  - compute_done.
  - compute_done.
  - simpl. lia.
Defined.

(** ** Lookups after an insert *)

Lemma find_app_earlier {A} (f : A → bool) (l : list A) (x r : A) :
  find f l = Some r → find f (l ++ [x]) = Some r.
Proof.
  induction l as [|y l IH]; simpl; [done|]. destruct (f y); [done|apply IH].
Qed.

Lemma existsb_none {A} (f : A → bool) (l : list A) :
  (∀ r, r ∈ l → f r = false) → existsb f l = false.
Proof.
  intros Hnone. apply not_true_is_false. intros Hex.
  apply existsb_exists in Hex as (r & Hr & Hf). apply list_elem_of_In in Hr.
  rewrite (Hnone r Hr) in Hf. done.
Qed.

Lemma eqb_false_of_ne (a b : string) : a ≠ b → String.eqb a b = false.
Proof. intros Hne. by apply String.eqb_neq. Qed.

(** X4.  [Pages.insert] with a uuid not in use stores the page: the
    lookup by the returned uuid yields the url, title, agency and site
    given, and so does [by_url] when no page with that url was stored
    before. *)
Theorem Pages_insert_then_lookup
    (_uuid : string) (now : Z) (url title agency site : string)
    (table : list PAGES_COLUMNS.row) :
  (∀ r, r ∈ table → PAGES_COLUMNS.uuid r ≠ _uuid) →
  let out := Pages.insert _uuid now url title agency site table in
  out.2 = Ok _uuid ∧
  Pages.getitem _uuid out.1 = Ok (Pages.nt _uuid url title agency site) ∧
  ((∀ r, r ∈ table → PAGES_COLUMNS.url r ≠ url) →
   Pages.by_url url out.1 = Ok (Pages.nt _uuid url title agency site)).
Proof.
  intros Hfresh. unfold Pages.insert.
  rewrite existsb_none by (intros r Hr; by apply eqb_false_of_ne, Hfresh).
  simpl. split; [done|]. split.
  - unfold Pages.getitem. rewrite (find_app_new _ _ _); [done| |apply String.eqb_refl].
    apply existsb_none. intros r Hr. by apply eqb_false_of_ne, Hfresh.
  - intros Hurl. unfold Pages.by_url.
    rewrite (find_app_new _ _ _); [done| |apply String.eqb_refl].
    apply existsb_none. intros r Hr. by apply eqb_false_of_ne, Hurl.
Qed.

Lemma Pages_insert_then_lookup_witness :
  let out := Pages.insert "P1" 7 "https://example.gov/" "Example" "EPA" "example.gov" [] in
  out.2 = Ok "P1" ∧
  Pages.getitem "P1" out.1 =
    Ok (Pages.nt "P1" "https://example.gov/" "Example" "EPA" "example.gov") ∧
  Pages.by_url "https://example.gov/" out.1 =
    Ok (Pages.nt "P1" "https://example.gov/" "Example" "EPA" "example.gov").
Proof.
  destruct (Pages_insert_then_lookup "P1" 7 "https://example.gov/" "Example" "EPA"
              "example.gov" []) as (Hret & Hget & Hurl).
  { intros r Hr. by apply elem_of_nil in Hr. }
  split; [exact Hret|]. split; [exact Hget|].
  apply Hurl. intros r Hr. by apply elem_of_nil in Hr.
Defined.

(** X5.  A later [Pages.insert], whatever its outcome, does not disturb
    the pages stored: every lookup by uuid or by url that returned a page
    returns the same page afterwards.  In particular [by_url] keeps
    returning the page stored first when a second page with the same url
    is inserted. *)
Theorem Pages_insert_keeps_earlier_pages
    (_uuid : string) (now : Z) (url title agency site : string)
    (table : list PAGES_COLUMNS.row) (key : string) (page : Pages.Page) :
  let out := Pages.insert _uuid now url title agency site table in
  (Pages.getitem key table = Ok page → Pages.getitem key out.1 = Ok page) ∧
  (Pages.by_url key table = Ok page → Pages.by_url key out.1 = Ok page).
Proof.
  unfold Pages.insert. destruct (existsb _ table); simpl; [done|].
  unfold Pages.getitem, Pages.by_url. split.
  - destruct (find _ table) as [r|] eqn:Hfind; [|done].
    by rewrite (find_app_earlier _ _ _ _ Hfind).
  - destruct (find _ table) as [r|] eqn:Hfind; [|done].
    by rewrite (find_app_earlier _ _ _ _ Hfind).
Qed.

(** Two pages with one url: [by_url] returns the first. *)
Lemma Pages_insert_keeps_earlier_pages_witness :
  let table := (Pages.insert "P1" 7 "https://example.gov/" "Example" "EPA"
                  "example.gov" []).1 in
  let out := Pages.insert "P2" 8 "https://example.gov/" "Other" "DOE" "example.gov"
               table in
  out.2 = Ok "P2" ∧
  Pages.by_url "https://example.gov/" out.1 =
    Ok (Pages.nt "P1" "https://example.gov/" "Example" "EPA" "example.gov").
Proof.
  intros table out. split; [reflexivity|].
  apply (Pages_insert_keeps_earlier_pages "P2" 8 "https://example.gov/" "Other" "DOE"
           "example.gov" table "https://example.gov/").
  reflexivity.
Defined.

(** X6.  [Versions.insert] with a uuid not in use stores the Version and
    enqueues it: the lookup by the returned uuid yields the fields given
    (the source type in the field [source_time]), the uuid is appended to
    [Versions.unprocessed], and every Version that could be looked up
    before is looked up unchanged. *)
Theorem Versions_insert_then_getitem
    (_uuid : string) (now : Z) (page_uuid : string) (capture_time : Z)
    (uri version_hash source_type : string) (source_metadata : json) (w : World) :
  (∀ r, r ∈ Versions_table w → VERSIONS_COLUMNS.uuid r ≠ _uuid) →
  let out := Versions.insert _uuid now page_uuid capture_time uri version_hash
               source_type source_metadata w in
  out.2 = Ok _uuid ∧
  Versions.getitem _uuid out.1 =
    Ok (Versions.nt _uuid page_uuid capture_time uri version_hash source_type
                    source_metadata) ∧
  Versions_unprocessed out.1 = Versions_unprocessed w ++ [_uuid] ∧
  ∀ uuid version, Versions.getitem uuid w = Ok version →
                  Versions.getitem uuid out.1 = Ok version.
Proof.
  intros Hfresh.
  assert (existsb (fun r => String.eqb (VERSIONS_COLUMNS.uuid r) _uuid)
                  (Versions_table w) = false) as Hex.
  { apply existsb_none. intros r Hr. by apply eqb_false_of_ne, Hfresh. }
  unfold Versions.insert, bind, modify, ret. rewrite Hex. simpl.
  split; [done|]. unfold Versions.getitem, set_Versions_unprocessed,
    set_Versions_table; simpl.
  split; [|split; [done|]].
  - by rewrite (find_app_new _ _ _ Hex); [|apply String.eqb_refl].
  - intros uuid version.
    destruct (find _ (Versions_table w)) as [r|] eqn:Hfind; [|done].
    by rewrite (find_app_earlier _ _ _ _ Hfind).
Qed.

Lemma Versions_insert_then_getitem_witness :
  let out := Versions.insert "V4" 103 "example.gov" 30 "/html/v4" "h4" "PageFreezer"
               JNull example_world in
  out.2 = Ok "V4" ∧
  Versions.getitem "V4" out.1 =
    Ok (Versions.nt "V4" "example.gov" 30 "/html/v4" "h4" "PageFreezer" JNull) ∧
  Versions_unprocessed out.1 = ["V1"; "V2"; "V3"; "V4"] ∧
  ∀ uuid version, Versions.getitem uuid example_world = Ok version →
                  Versions.getitem uuid out.1 = Ok version.
Proof.
  apply (Versions_insert_then_getitem "V4" 103 "example.gov" 30 "/html/v4" "h4"
           "PageFreezer" JNull example_world).
  intros r Hr. unfold example_world, example_versions in Hr. simpl in Hr.
  repeat (apply elem_of_cons in Hr as [->|Hr]; [done|]).
  by apply elem_of_nil in Hr.
Defined.

(** ** The lineage: ORDER BY, once more *)

Lemma insert_sorted_Permutation {A} (key : A → Z) (x : A) (l : list A) :
  insert_sorted key x l ≡ₚ x :: l.
Proof.
  induction l as [|y l IH]; simpl; [done|].
  destruct (key y <? key x)%Z; [|done].
  rewrite IH. apply Permutation_swap.
Qed.

Lemma order_by_Permutation {A} (key : A → Z) (l : list A) : order_by key l ≡ₚ l.
Proof.
  induction l as [|x l IH]; simpl; [done|].
  by rewrite insert_sorted_Permutation, IH.
Qed.

Lemma order_by_sorted {A} (key : A → Z) (l : list A) :
  StronglySorted (fun a b => (key a ≤ key b)%Z) (order_by key l).
Proof.
  induction l as [|x l IH]; simpl; [constructor|].
  induction IH as [|y sorted Hsorted IHsorted Hy]; simpl.
  - repeat constructor.
  - destruct (key y <? key x)%Z eqn:Hlt.
    + apply Z.ltb_lt in Hlt. constructor; [done|].
      apply Forall_forall. intros z Hz.
      apply elem_of_insert_sorted in Hz as [->|Hz]; [lia|].
      by apply (proj1 (Forall_forall _ _) Hy).
    + apply Z.ltb_ge in Hlt. constructor; [by constructor|].
      constructor; [done|].
      apply Forall_forall. intros z Hz.
      pose proof (proj1 (Forall_forall _ _) Hy z Hz). simpl in *. lia.
Qed.

(** The first row of [ORDER BY key] is the first of the rows with the
    least key: the rows before it have greater keys. *)
Lemma order_by_head_split {A} (key : A → Z) (l : list A) (r : A) (rest : list A) :
  order_by key l = r :: rest →
  ∃ pre post, l = pre ++ r :: post ∧
              (∀ x, x ∈ pre → (key r < key x)%Z) ∧
              (∀ x, x ∈ post → (key r ≤ key x)%Z).
Proof.
  revert r rest. induction l as [|a l IH]; intros r rest Hsort; [done|].
  simpl in Hsort. destruct (order_by key l) as [|y ys] eqn:Hl.
  - injection Hsort as <- <-. exists [], l. split; [done|]. split.
    + intros x Hx. by apply elem_of_nil in Hx.
    + intros x Hx. apply (elem_of_order_by key) in Hx. rewrite Hl in Hx.
      by apply elem_of_nil in Hx.
  - simpl in Hsort. destruct (key y <? key a)%Z eqn:Hlt.
    + injection Hsort as <- <-. apply Z.ltb_lt in Hlt.
      destruct (IH y ys eq_refl) as (pre & post & -> & Hpre & Hpost).
      exists (a :: pre), post. split; [done|]. split; [|done].
      intros x Hx. apply elem_of_cons in Hx as [->|Hx]; [done|by apply Hpre].
    + injection Hsort as <- <-. apply Z.ltb_ge in Hlt.
      exists [], l. split; [done|]. split.
      * intros x Hx. by apply elem_of_nil in Hx.
      * intros x Hx. pose proof (order_by_head_least key l y ys Hl x Hx). lia.
Qed.

Lemma order_by_head_intro {A} (key : A → Z) (pre post : list A) (r : A) :
  (∀ x, x ∈ pre → (key r < key x)%Z) →
  (∀ x, x ∈ post → (key r ≤ key x)%Z) →
  ∃ rest, order_by key (pre ++ r :: post) = r :: rest.
Proof.
  intros Hpre Hpost. induction pre as [|a pre IH]; simpl.
  - destruct (order_by key post) as [|y ys] eqn:Hl; simpl; [by eexists|].
    assert (y ∈ post) as Hy.
    { apply (elem_of_order_by key). rewrite Hl. by left. }
    specialize (Hpost y Hy).
    destruct (key y <? key r)%Z eqn:Hlt; [apply Z.ltb_lt in Hlt; lia|by eexists].
  - destruct IH as [rest ->].
    { intros x Hx. apply Hpre. by right. }
    simpl. assert (key r < key a)%Z as Hlt by (apply Hpre; by left).
    apply Z.ltb_lt in Hlt. rewrite Hlt. by eexists.
Qed.

Lemma filter_page_app (page_uuid : string) (t : list VERSIONS_COLUMNS.row)
    (r : VERSIONS_COLUMNS.row) :
  List.filter (fun r => String.eqb (VERSIONS_COLUMNS.page_uuid r) page_uuid) (t ++ [r]) =
  List.filter (fun r => String.eqb (VERSIONS_COLUMNS.page_uuid r) page_uuid) t ++
    (if String.eqb (VERSIONS_COLUMNS.page_uuid r) page_uuid then [r] else []).
Proof. by rewrite List.filter_app. Qed.

(** X7.  How a new capture moves the baseline.  After [Versions.insert]
    with a uuid not in use: [oldest] of every other page is what it was;
    [oldest] of the page of the new Version is what it was when the new
    [capture_time] is not earlier than that of the Version it returned (on
    a tie the Version stored first stays the oldest); and it is the new
    Version when the new [capture_time] is strictly earlier than that of
    every Version of the page, so the first Version of a page is its own
    oldest. *)
Theorem Versions_insert_and_oldest
    (_uuid : string) (now : Z) (page_uuid : string) (capture_time : Z)
    (uri version_hash source_type : string) (source_metadata : json) (w : World) :
  (∀ r, r ∈ Versions_table w → VERSIONS_COLUMNS.uuid r ≠ _uuid) →
  let w' := (Versions.insert _uuid now page_uuid capture_time uri version_hash
               source_type source_metadata w).1 in
  (∀ other, other ≠ page_uuid → Versions.oldest other w' = Versions.oldest other w) ∧
  (∀ ancestor, Versions.oldest page_uuid w = Ok ancestor →
               (Versions.capture_time ancestor ≤ capture_time)%Z →
               Versions.oldest page_uuid w' = Ok ancestor) ∧
  ((∀ r, r ∈ Versions_table w → VERSIONS_COLUMNS.page_uuid r = page_uuid →
         (capture_time < VERSIONS_COLUMNS.capture_time r)%Z) →
   Versions.oldest page_uuid w' =
     Ok (Versions.nt _uuid page_uuid capture_time uri version_hash source_type
                     source_metadata)).
Proof.
  intros Hfresh.
  assert (existsb (fun r => String.eqb (VERSIONS_COLUMNS.uuid r) _uuid)
                  (Versions_table w) = false) as Hex.
  { apply existsb_none. intros r Hr. by apply eqb_false_of_ne, Hfresh. }
  unfold Versions.insert, bind, modify, ret. rewrite Hex. simpl.
  unfold Versions.oldest, set_Versions_unprocessed, set_Versions_table; simpl.
  split; [|split].
  - intros other Hother. rewrite filter_page_app. simpl.
    rewrite eqb_false_of_ne by done. by rewrite app_nil_r.
  - intros ancestor. rewrite filter_page_app. simpl. rewrite String.eqb_refl.
    destruct (order_by _ (List.filter _ (Versions_table w))) as [|r rest] eqn:Hsort;
      [done|].
    intros [= <-] Hle.
    destruct (order_by_head_split _ _ _ _ Hsort) as (pre & post & -> & Hpre & Hpost).
    rewrite <- app_assoc. simpl.
    destruct (order_by_head_intro VERSIONS_COLUMNS.capture_time pre
                (post ++ [VERSIONS_COLUMNS.Row _uuid page_uuid capture_time uri
                            version_hash source_type source_metadata now now]) r)
      as [rest' ->]; [done| |done].
    intros x Hx. apply elem_of_app in Hx as [Hx|Hx]; [by apply Hpost|].
    apply list_elem_of_singleton in Hx as ->. done.
  - intros Hearlier. rewrite filter_page_app. simpl. rewrite String.eqb_refl.
    destruct (order_by_head_intro VERSIONS_COLUMNS.capture_time
                (List.filter (fun r => String.eqb (VERSIONS_COLUMNS.page_uuid r) page_uuid)
                             (Versions_table w)) []
                (VERSIONS_COLUMNS.Row _uuid page_uuid capture_time uri
                   version_hash source_type source_metadata now now))
      as [rest' ->]; [| |done].
    + intros x Hx. apply elem_of_filter_page in Hx as [Hx Hpage]. simpl.
      by apply Hearlier.
    + intros x Hx. by apply elem_of_nil in Hx.
Qed.

(** A fourth capture of example.gov after V1..V3 leaves V1 the oldest;
    the first capture of another page is that page's oldest. *)
Lemma Versions_insert_and_oldest_witness :
  Versions.oldest "example.gov"
    (Versions.insert "V4" 103 "example.gov" 30 "/html/v4" "h4" "PageFreezer" JNull
       example_world).1 =
    Ok (Versions.nt "V1" "example.gov" 0 "/html/v1" "h1" "PageFreezer" JNull) ∧
  Versions.oldest "other.gov"
    (Versions.insert "W1" 103 "other.gov" 5 "/html/w1" "k1" "PageFreezer" JNull
       example_world).1 =
    Ok (Versions.nt "W1" "other.gov" 5 "/html/w1" "k1" "PageFreezer" JNull).
Proof.
  assert (∀ u, u ≠ "V1" → u ≠ "V2" → u ≠ "V3" →
               ∀ r, r ∈ Versions_table example_world → VERSIONS_COLUMNS.uuid r ≠ u)
    as Hfresh.
  { intros u H1 H2 H3 r Hr. unfold example_world, example_versions in Hr. simpl in Hr.
    repeat (apply elem_of_cons in Hr as [->|Hr]; [by apply not_eq_sym|]).
    by apply elem_of_nil in Hr. }
  split.
  - destruct (Versions_insert_and_oldest "V4" 103 "example.gov" 30 "/html/v4" "h4"
                "PageFreezer" JNull example_world) as (_ & Hkeep & _).
    { by apply Hfresh. }
    apply Hkeep; [reflexivity|simpl; lia].
  - destruct (Versions_insert_and_oldest "W1" 103 "other.gov" 5 "/html/w1" "k1"
                "PageFreezer" JNull example_world) as (_ & _ & Hnew).
    { by apply Hfresh. }
    apply Hnew. intros r Hr Hpage.
    unfold example_world, example_versions in Hr. simpl in Hr.
    repeat (apply elem_of_cons in Hr as [->|Hr]; [done|]).
    by apply elem_of_nil in Hr.
Defined.

Lemma StronglySorted_map {A B} (R : A → A → Prop) (R' : B → B → Prop)
    (f : A → B) (l : list A) :
  (∀ a b, R a b → R' (f a) (f b)) →
  StronglySorted R l → StronglySorted R' (map f l).
Proof.
  intros Hf. induction 1 as [|a l Hsorted IH Ha]; simpl; constructor; [done|].
  apply Forall_forall. intros y Hy.
  apply list_elem_of_fmap in Hy as (x & -> & Hx).
  apply Hf. by apply (proj1 (Forall_forall _ _) Ha).
Qed.

(** The loop takes one [next()] after the other. *)
Lemma history_drain_next (generator_stop : bool) (proxy : list VERSIONS_COLUMNS.row) :
  history_drain generator_stop proxy =
    match history_next generator_stop proxy with
    | Yields version proxy' =>
        (version :: (history_drain generator_stop proxy').1,
         (history_drain generator_stop proxy').2)
    | Raises StopIteration => ([], None)
    | Raises RuntimeError => ([], Some RuntimeError)
    end.
Proof. by destruct proxy, generator_stop. Qed.

Lemma history_drain_all (generator_stop : bool) (proxy : list VERSIONS_COLUMNS.row) :
  history_drain generator_stop proxy =
    (Versions.of_row <$> proxy, if generator_stop then Some RuntimeError else None).
Proof.
  induction proxy as [|result proxy IH]; simpl; [done|]. by rewrite IH.
Qed.

(** X8.  A loop over [history] receives each Version of the page once and
    no other, newest first; the Version it receives last has the
    [capture_time] of the one [oldest] returns, and it receives nothing
    exactly when [oldest] raises [TypeError].  After the last Version the
    generator executes [raise StopIteration]: with PEP 479 in force
    (Python 3.7 and later) every loop that runs to the end, also over a
    page with Versions, ends in [RuntimeError]; without it the loop ends
    regularly. *)
Theorem Versions_history_newest_first
    (generator_stop : bool) (page_uuid : string) (w : World) :
  let loop := Versions_history generator_stop page_uuid w in
  loop.1 ≡ₚ
    map Versions.of_row
      (List.filter (fun r => String.eqb (VERSIONS_COLUMNS.page_uuid r) page_uuid)
                   (Versions_table w)) ∧
  StronglySorted
    (fun newer older => (Versions.capture_time older ≤ Versions.capture_time newer)%Z)
    loop.1 ∧
  (∀ version, last loop.1 = Some version →
              ∃ ancestor, Versions.oldest page_uuid w = Ok ancestor ∧
                          Versions.capture_time ancestor = Versions.capture_time version) ∧
  (loop.1 = [] ↔ Versions.oldest page_uuid w = Raise TypeError) ∧
  loop.2 = (if generator_stop then Some RuntimeError else None) ∧
  (generator_stop = true → loop.2 = Some RuntimeError).
Proof.
  unfold Versions_history, history_proxy, order_by_desc.
  rewrite history_drain_all. simpl.
  set (rows := List.filter _ (Versions_table w)).
  split; [by rewrite order_by_Permutation|]. split.
  { apply (StronglySorted_map
             (fun a b => (- VERSIONS_COLUMNS.capture_time a
                          ≤ - VERSIONS_COLUMNS.capture_time b)%Z)).
    - intros a b Hab. simpl. lia.
    - apply order_by_sorted. }
  split; [|split; [|split; [done|by intros ->]]].
  - intros version Hlast.
    rewrite fmap_last in Hlast.
    destruct (last (order_by _ rows)) as [r|] eqn:Hr; [|done].
    injection Hlast as <-.
    assert (∀ x, x ∈ rows →
              (VERSIONS_COLUMNS.capture_time r ≤ VERSIONS_COLUMNS.capture_time x)%Z)
      as Hleast.
    { intros x Hx. apply last_Some in Hr as [front Hfront].
      pose proof (order_by_sorted (fun x => (- VERSIONS_COLUMNS.capture_time x)%Z) rows)
        as Hsorted.
      apply (elem_of_order_by (fun x => (- VERSIONS_COLUMNS.capture_time x)%Z)) in Hx.
      rewrite Hfront in Hx, Hsorted.
      apply elem_of_app in Hx as [Hx|Hx].
      - assert (r ∈ [r]) as Hrr by (by left).
        pose proof (StronglySorted_app_1_elem_of _ _ _ x r Hsorted Hx Hrr) as Hle.
        simpl in Hle. lia.
      - apply list_elem_of_singleton in Hx as ->. lia. }
    assert (r ∈ rows) as Hin.
    { apply (elem_of_order_by (fun x => (- VERSIONS_COLUMNS.capture_time x)%Z)).
      by apply last_Some_elem_of. }
    unfold Versions.oldest. fold rows.
    destruct (order_by VERSIONS_COLUMNS.capture_time rows) as [|a rest] eqn:Hsort.
    + apply (elem_of_order_by VERSIONS_COLUMNS.capture_time) in Hin.
      rewrite Hsort in Hin. by apply elem_of_nil in Hin.
    + exists (Versions.of_row a). split; [done|]. simpl.
      pose proof (order_by_head_least _ _ _ _ Hsort r Hin) as Hle.
      assert (a ∈ rows) as Ha.
      { apply (elem_of_order_by VERSIONS_COLUMNS.capture_time). rewrite Hsort. by left. }
      specialize (Hleast a Ha). lia.
  - unfold Versions.oldest. fold rows.
    assert (order_by (fun x => (- VERSIONS_COLUMNS.capture_time x)%Z) rows ≡ₚ
            order_by VERSIONS_COLUMNS.capture_time rows) as Hperm
      by by rewrite !order_by_Permutation.
    destruct (order_by VERSIONS_COLUMNS.capture_time rows) as [|a rest] eqn:Hsort.
    + apply Permutation_nil_r in Hperm. rewrite Hperm. done.
    + split; [|done]. intros Hnil. apply fmap_nil_inv in Hnil.
      rewrite Hnil in Hperm. by apply Permutation_nil_cons in Hperm.
Qed.

(** The scenario of the specification: the loop receives V3, V2, V1, and
    ends in [RuntimeError] with PEP 479, regularly without. *)
Lemma Versions_history_newest_first_witness :
  Versions_history true "example.gov" example_world =
    (map Versions.of_row (rev example_versions), Some RuntimeError) ∧
  Versions_history false "example.gov" example_world =
    (map Versions.of_row (rev example_versions), None) ∧
  (Versions_history true "other.gov" example_world).2 = Some RuntimeError ∧
  ∃ ancestor, Versions.oldest "example.gov" example_world = Ok ancestor ∧
              Versions.capture_time ancestor = 0%Z.
Proof.
  split; [reflexivity|]. split; [reflexivity|].
  destruct (Versions_history_newest_first true "other.gov" example_world)
    as (_ & _ & _ & _ & _ & Hend).
  split; [by apply Hend|].
  destruct (Versions_history_newest_first true "example.gov" example_world)
    as (_ & _ & Hlast & _).
  apply (Hlast (Versions.nt "V1" "example.gov" 0 "/html/v1" "h1" "PageFreezer" JNull)).
  reflexivity.
Defined.

(** ** Failures, and what they leave behind *)

Section failures.
Context `{Externals}.

(** A failing [Diffs.insert] has changed nothing, unless the failure is
    the engine's refusal of the uuid: then the payload file is written. *)
Lemma Diffs_insert_raises _uuid name now version_from version_to result
    source_type source_metadata (w w' : World) (e : exn) :
  Diffs.insert _uuid name now version_from version_to result
               source_type source_metadata w = (w', Raise e) →
  (w' = w ∧ e ≠ IntegrityError) ∨
  (e = IntegrityError ∧ files w !! name = None ∧ ¬ fresh_uuid _uuid w ∧
   w' = set_files (<[name := json_dumps result]> (files w)) w).
Proof.
  unfold Diffs.insert, bind, try, Diffs._get_new_filepath, write_file, modify, ret.
  destruct (getitem result "output") as [output|e0] eqn:Hout.
  2:{ intros [= <- <-]. left. split; [done|].
      unfold getitem in Hout. destruct result; try by injection Hout as <-.
      destruct (assoc _ _); [done|]. by injection Hout as <-. }
  destruct (getitem output "diffs") as [diffs|e0] eqn:Hdiffs.
  2:{ intros [= <- <-]. left. split; [done|].
      unfold getitem in Hdiffs. destruct output; try by injection Hdiffs as <-.
      destruct (assoc _ _); [done|]. by injection Hdiffs as <-. }
  destruct (files w !! name) eqn:Hname; simpl.
  { intros [= <- <-]. by left. }
  destruct (existsb _ (Diffs_table w)) eqn:Hex; simpl; [|done].
  intros [= <- <-]. right. split; [done|]. split; [done|]. split.
  - intros Hfresh. apply existsb_fresh_uuid in Hfresh. congruence.
  - unfold set_files; simpl. by rewrite insert_insert_eq.
Qed.

(** [diff_version] either raises before it reaches [Diffs.insert], with
    the world untouched, or it is that [Diffs.insert]. *)
Lemma diff_version_cases _uuid name now version_uuid source_type source_metadata
    (w : World) :
  (∃ e, diff_version _uuid name now version_uuid source_type source_metadata w =
          (w, Raise e))
  ∨ (∃ version_from version_to payload,
       diff_version _uuid name now version_uuid source_type source_metadata w =
         match Diffs.insert _uuid name now version_from version_to payload
                            source_type source_metadata w with
         | (w1, Ok _) => (w1, Ok None)
         | (w1, Raise e) => (w1, Raise e)
         end).
Proof.
  unfold diff_version, bind, reading, try, raise, ret.
  destruct (Versions.getitem version_uuid w) as [version|e]; [|left; by exists e].
  destruct (Versions.oldest _ w) as [ancestor|e]; [|left; by exists e].
  destruct (Versions.eqb ancestor version); [left; by exists NoAncestor|].
  destruct (read_file (Versions.uri ancestor) w) as [html1|e]; [|left; by exists e].
  destruct (read_file (Versions.uri version) w) as [html2|e]; [|left; by exists e].
  destruct (compare html1 html2 w) as [response|e]; [|left; by exists e].
  destruct (getitem response "status") as [status|e]; [|left; by exists e].
  destruct (negb (json_eqb status (JStr "ok")));
    [left; by exists PageFreezerError|].
  destruct (getitem response "result") as [payload|e]; [|left; by exists e].
  right. exists (Versions.uuid ancestor), (Versions.uuid version), payload.
  by destruct (Diffs.insert _ _ _ _ _ _ _ _ w) as [w1 [returned|e]].
Qed.

End failures.

(** X9.  A failing [Diffs.insert] has changed nothing at all, except when
    the engine refuses the uuid as already in use: by then the payload
    file is written, and it stays behind with no row and no entry of
    [Diffs.unprocessed] naming it.  A payload without ['output'] or
    ['diffs'], and a file name in use, are failures of the first kind. *)
Theorem Diffs_insert_failure `{Externals}
    (_uuid name : string) (now : Z) (version_from version_to : string)
    (result : json) (source_type : string) (source_metadata : json)
    (w w' : World) (e : exn) :
  Diffs.insert _uuid name now version_from version_to result
               source_type source_metadata w = (w', Raise e) →
  Diffs_table w' = Diffs_table w ∧ Diffs_unprocessed w' = Diffs_unprocessed w ∧
  ((w' = w ∧ e ≠ IntegrityError) ∨
   (e = IntegrityError ∧ files w !! name = None ∧ ¬ fresh_uuid _uuid w ∧
    files w' !! name = Some (json_dumps result) ∧
    w' = set_files (<[name := json_dumps result]> (files w)) w)).
Proof.
  intros Hrun. apply Diffs_insert_raises in Hrun as [[-> Hne] | (-> & Hname & Hused & ->)].
  - split; [done|]. split; [done|]. by left.
  - split; [done|]. split; [done|]. right.
    split; [done|]. split; [done|]. split; [done|]. split; [|done].
    unfold set_files; simpl. apply lookup_insert_eq.
Qed.

(** X10.  A failing [diff_version] has changed nothing at all, except when
    the engine refuses the drawn uuid: then the only trace of the run is
    the payload file.  Either way the tables and the two deques are as
    they were. *)
Theorem diff_version_failure `{Externals}
    (_uuid name : string) (now : Z) (version_uuid source_type : string)
    (source_metadata : json) (w w' : World) (e : exn) :
  diff_version _uuid name now version_uuid source_type source_metadata w =
    (w', Raise e) →
  w' = w ∨
  (e = IntegrityError ∧ files w !! name = None ∧ ¬ fresh_uuid _uuid w ∧
   ∃ payload, w' = set_files (<[name := json_dumps payload]> (files w)) w).
Proof.
  intros Hrun.
  destruct (diff_version_cases _uuid name now version_uuid source_type
              source_metadata w) as [[e0 Heq] | (vf & vt & payload & Heq)];
    rewrite Heq in Hrun.
  - injection Hrun as <- <-. by left.
  - destruct (Diffs.insert _uuid name now vf vt payload source_type source_metadata w)
      as [w1 [returned|e1]] eqn:Hins; [done|].
    injection Hrun as <- <-.
    apply Diffs_insert_raises in Hins as [[-> _] | (-> & Hname & Hused & ->)].
    + by left.
    + right. split; [done|]. split; [done|]. split; [done|]. by exists payload.
Qed.

(** The uuid D1 is in use: the engine refuses the row, and the payload
    file /tmp/f2 stays behind. *)
Lemma Diffs_insert_failure_witness :
  let out := Diffs.insert "D1" "/tmp/f2" 201 "V1" "V3" example_payload "PageFreezer"
               JNull world_with_D1 in
  out.2 = Raise IntegrityError ∧
  Diffs_table out.1 = Diffs_table world_with_D1 ∧
  Diffs_unprocessed out.1 = Diffs_unprocessed world_with_D1 ∧
  files world_with_D1 !! "/tmp/f2" = None ∧
  files out.1 !! "/tmp/f2" = Some (json_dumps example_payload).
Proof.
  intros out.
  assert (Diffs.insert "D1" "/tmp/f2" 201 "V1" "V3" example_payload "PageFreezer"
            JNull world_with_D1 = (out.1, Raise IntegrityError)) as Hrun
    by (vm_compute; reflexivity).
  split; [vm_compute; reflexivity|].
  destruct (Diffs_insert_failure "D1" "/tmp/f2" 201 "V1" "V3" example_payload
              "PageFreezer" JNull world_with_D1 out.1 IntegrityError Hrun)
    as (Htable & Hdeque & [[_ Hne] | (_ & Hname & _ & Hfile & _)]); [done|].
  split; [exact Htable|]. split; [exact Hdeque|]. split; [exact Hname|exact Hfile].
Defined.

Lemma diff_version_failure_witness :
  let out := diff_version "D1" "/tmp/f2" 201 "V3" "PageFreezer" JNull world_with_D1 in
  out.2 = Raise IntegrityError ∧
  out.1 ≠ world_with_D1 ∧
  ∃ payload,
    out.1 = set_files (<["/tmp/f2" := json_dumps payload]> (files world_with_D1))
                      world_with_D1.
Proof.
  intros out.
  assert (diff_version "D1" "/tmp/f2" 201 "V3" "PageFreezer" JNull world_with_D1
          = (out.1, Raise IntegrityError)) as Hrun by (vm_compute; reflexivity).
  assert (files out.1 !! "/tmp/f2" ≠ files world_with_D1 !! "/tmp/f2") as Hfiles
    by (vm_compute; discriminate).
  split; [vm_compute; reflexivity|].
  split; [intros Heq; by rewrite Heq in Hfiles|].
  destruct (diff_version_failure "D1" "/tmp/f2" 201 "V3" "PageFreezer" JNull
              world_with_D1 out.1 IntegrityError Hrun)
    as [Heq | (_ & _ & _ & Hpayload)].
  - by rewrite Heq in Hfiles.
  - exact Hpayload.
Defined.

(** ** The invariants of the tables and the deques *)

Lemma NoDup_map_snoc {A} (f : A → string) (l : list A) (x : A) :
  NoDup (map f l) → (∀ r, r ∈ l → f r ≠ f x) → NoDup (map f (l ++ [x])).
Proof.
  intros Hnodup Hfresh. rewrite map_app. simpl.
  apply NoDup_app. split; [done|]. split; [|apply NoDup_singleton].
  intros u Hu Hux. apply list_elem_of_singleton in Hux as ->.
  change (f x ∈ f <$> l) in Hu.
  apply list_elem_of_fmap in Hu as (r & Heq & Hr). by destruct (Hfresh r Hr).
Qed.

Lemma not_existsb_uuid {A} (f : A → string) (l : list A) (u : string) :
  existsb (fun r => String.eqb (f r) u) l = false → ∀ r, r ∈ l → f r ≠ u.
Proof.
  intros Hex r Hr Heq. apply list_elem_of_In in Hr.
  assert (existsb (fun r => String.eqb (f r) u) l = true); [|congruence].
  apply existsb_exists. exists r. split; [done|]. by apply String.eqb_eq.
Qed.

Lemma consistent_set_files (f : gmap string string) (w : World) :
  consistent w → consistent (set_files f w).
Proof. by intros []. Qed.

Lemma consistent_Versions_insert _uuid now page_uuid capture_time uri version_hash
    source_type source_metadata (w : World) :
  consistent w →
  consistent (Versions.insert _uuid now page_uuid capture_time uri version_hash
                source_type source_metadata w).1.
Proof.
  intros [Hv Hd Ha Hvq Hdq]. unfold Versions.insert, bind, modify, ret.
  destruct (existsb _ (Versions_table w)) eqn:Hex; simpl; [done|].
  pose proof (not_existsb_uuid _ _ _ Hex) as Hfresh.
  split; simpl; try done.
  - by apply NoDup_map_snoc.
  - by rewrite map_app, Hvq.
Qed.

Lemma consistent_Annotations_insert _uuid now version_from version_to annotation
    author (w : World) :
  consistent w →
  consistent (Annotations.insert _uuid now version_from version_to annotation
                author w).1.
Proof.
  intros [Hv Hd Ha Hvq Hdq]. unfold Annotations.insert, bind, ret.
  destruct (existsb _ (Annotations_table w)) eqn:Hex; simpl; [done|].
  pose proof (not_existsb_uuid _ _ _ Hex) as Hfresh.
  split; simpl; try done. by apply NoDup_map_snoc.
Qed.

Lemma consistent_Diffs_insert `{Externals} _uuid name now version_from version_to
    result source_type source_metadata (w : World) :
  consistent w →
  consistent (Diffs.insert _uuid name now version_from version_to result
                source_type source_metadata w).1.
Proof.
  intros Hw.
  pose proof (Diffs_insert_outcome _uuid name now version_from version_to result
                source_type source_metadata w) as Hout.
  destruct (Diffs.insert _ _ _ _ _ _ _ _ w) as [w' [returned|e]] eqn:Hrun;
    simpl in *.
  - destruct Hout as (_ & Hfresh & _ & output & diffs & _ & _ & ->).
    destruct Hw as [Hv Hd Ha Hvq Hdq]. split; simpl; try done.
    + by apply NoDup_map_snoc.
    + by rewrite map_app, Hdq.
  - apply Diffs_insert_raises in Hrun as [[-> _] | (_ & _ & _ & ->)]; [done|].
    by apply consistent_set_files.
Qed.

(** X11.  The four writers of the module keep the tables and the deques
    in step: from a world in which the uuids of each table are distinct
    and each of [Versions.unprocessed] and [Diffs.unprocessed] lists the
    uuids of its table in insertion order, [Versions.insert],
    [Diffs.insert], [Annotations.insert] and [diff_version] lead to such a
    world again, whether they return or raise.  Nothing ever leaves a
    deque. *)
Theorem consistent_is_kept `{Externals} (w : World) :
  consistent w →
  (∀ _uuid now page_uuid capture_time uri version_hash source_type source_metadata,
     consistent (Versions.insert _uuid now page_uuid capture_time uri version_hash
                   source_type source_metadata w).1) ∧
  (∀ _uuid name now version_from version_to result source_type source_metadata,
     consistent (Diffs.insert _uuid name now version_from version_to result
                   source_type source_metadata w).1) ∧
  (∀ _uuid now version_from version_to annotation author,
     consistent (Annotations.insert _uuid now version_from version_to annotation
                   author w).1) ∧
  (∀ _uuid name now version_uuid source_type source_metadata,
     consistent (diff_version _uuid name now version_uuid source_type
                   source_metadata w).1).
Proof.
  intros Hw. split; [|split; [|split]].
  - intros. by apply consistent_Versions_insert.
  - intros. by apply consistent_Diffs_insert.
  - intros. by apply consistent_Annotations_insert.
  - intros _uuid name now version_uuid source_type source_metadata.
    destruct (diff_version_cases _uuid name now version_uuid source_type
                source_metadata w) as [[e ->] | (vf & vt & payload & ->)]; [done|].
    pose proof (consistent_Diffs_insert _uuid name now vf vt payload source_type
                  source_metadata w Hw) as Hins.
    by destruct (Diffs.insert _ _ _ _ _ _ _ _ w) as [w1 [returned|e]].
Qed.

Lemma consistent_empty_world : consistent empty_world.
Proof. split; simpl; try done; apply NoDup_nil_2. Qed.

Lemma consistent_example_world : consistent example_world.
Proof. split; simpl; try done; compute_done. Qed.

Lemma consistent_is_kept_witness :
  consistent example_world ∧
  consistent (Versions.insert "V4" 103 "example.gov" 30 "/html/v4" "h4" "PageFreezer"
                JNull example_world).1 ∧
  consistent world_with_D1 ∧
  consistent (diff_version "D1" "/tmp/f2" 201 "V3" "PageFreezer" JNull world_with_D1).1.
Proof.
  pose proof consistent_example_world as Hw.
  destruct (consistent_is_kept example_world Hw) as (Hversions & _ & _ & Hdiff).
  split; [exact Hw|]. split; [apply Hversions|].
  assert (consistent world_with_D1) as Hw1 by apply Hdiff.
  split; [exact Hw1|].
  destruct (consistent_is_kept world_with_D1 Hw1) as (_ & _ & _ & Hdiff1).
  apply Hdiff1.
Defined.

(** ** Diffs stored earlier *)

Section stored_Diffs.
Context `{Externals}.

Lemma Diffs_getitem_set_files (name content uuid : string) (w : World) (d : Diffs.Diff) :
  files w !! name = None →
  Diffs.getitem uuid w = Ok d →
  Diffs.getitem uuid (set_files (<[name := content]> (files w)) w) = Ok d.
Proof.
  intros Hname. unfold Diffs.getitem, read_file, set_files; simpl.
  destruct (find _ (Diffs_table w)) as [r|]; [|done]. cbn.
  destruct (files w !! DIFFS_COLUMNS.uri r) as [text|] eqn:Huri; [|done].
  rewrite lookup_insert_ne; [by rewrite Huri|]. intros Heq. congruence.
Qed.

Lemma Diffs_getitem_with_new_diff _uuid name now version_from version_to result diffs
    source_type source_metadata (uuid : string) (w : World) (d : Diffs.Diff) :
  files w !! name = None →
  Diffs.getitem uuid w = Ok d →
  Diffs.getitem uuid (with_new_diff _uuid name now version_from version_to result
                        diffs source_type source_metadata w) = Ok d.
Proof.
  intros Hname. unfold Diffs.getitem, read_file, with_new_diff; simpl.
  destruct (find _ (Diffs_table w)) as [r|] eqn:Hfind; [|done].
  rewrite (find_app_earlier _ _ _ _ Hfind). cbn.
  destruct (files w !! DIFFS_COLUMNS.uri r) as [text|] eqn:Huri; [|done].
  rewrite lookup_insert_ne; [by rewrite Huri|]. intros Heq. congruence.
Qed.

Lemma Diffs_insert_keeps _uuid name now version_from version_to result
    source_type source_metadata (uuid : string) (w : World) (d : Diffs.Diff) :
  Diffs.getitem uuid w = Ok d →
  Diffs.getitem uuid (Diffs.insert _uuid name now version_from version_to result
                        source_type source_metadata w).1 = Ok d.
Proof.
  intros Hget.
  pose proof (Diffs_insert_outcome _uuid name now version_from version_to result
                source_type source_metadata w) as Hout.
  destruct (Diffs.insert _ _ _ _ _ _ _ _ w) as [w' [returned|e]] eqn:Hrun;
    simpl in *.
  - destruct Hout as (_ & _ & Hname & output & diffs & _ & _ & ->).
    by apply Diffs_getitem_with_new_diff.
  - apply Diffs_insert_raises in Hrun as [[-> _] | (_ & Hname & _ & ->)]; [done|].
    by apply Diffs_getitem_set_files.
Qed.

End stored_Diffs.

(** X12.  A Diff that can be looked up stays as it is: after any later
    [Diffs.insert] or [diff_version], returned or raised, the lookup by
    its uuid yields the same record with the same content.  The new
    payload goes to a file of its own and the new row after the others. *)
Theorem stored_Diffs_are_kept `{Externals} (uuid : string) (w : World) (d : Diffs.Diff) :
  Diffs.getitem uuid w = Ok d →
  (∀ _uuid name now version_from version_to result source_type source_metadata,
     Diffs.getitem uuid
       (Diffs.insert _uuid name now version_from version_to result
                     source_type source_metadata w).1 = Ok d) ∧
  (∀ _uuid name now version_uuid source_type source_metadata,
     Diffs.getitem uuid
       (diff_version _uuid name now version_uuid source_type source_metadata w).1
     = Ok d).
Proof.
  intros Hget. split.
  - intros. by apply Diffs_insert_keeps.
  - intros _uuid name now version_uuid source_type source_metadata.
    destruct (diff_version_cases _uuid name now version_uuid source_type
                source_metadata w) as [[e ->] | (vf & vt & payload & ->)]; [done|].
    pose proof (Diffs_insert_keeps _uuid name now vf vt payload source_type
                  source_metadata uuid w d Hget) as Hkeep.
    by destruct (Diffs.insert _ _ _ _ _ _ _ _ w) as [w1 [returned|e]].
Qed.

(** D1 is read back unchanged after [diff_version(V3)] has stored D2. *)
Lemma stored_Diffs_are_kept_witness :
  let d := Diffs.nt "D1" "V1" "V2" (sha256_hexdigest (py_str example_diffs))
             "/tmp/f1" "PageFreezer" JNull example_payload in
  Diffs.getitem "D1" world_with_D1 = Ok d ∧
  Diffs.getitem "D1"
    (diff_version "D2" "/tmp/f2" 201 "V3" "PageFreezer" JNull world_with_D1).1 = Ok d.
Proof.
  intros d.
  assert (Diffs.getitem "D1" world_with_D1 = Ok d) as Hget by (vm_compute; reflexivity).
  split; [exact Hget|].
  destruct (stored_Diffs_are_kept "D1" world_with_D1 d Hget) as [_ Hdiff].
  apply Hdiff.
Defined.

(** X13.  Diffs has no uniqueness beyond the uuid: inserting the same
    comparison of the same two Versions a second time, under another uuid
    and file name, succeeds and stores a second row with the same
    [version_from], [version_to] and [diffhash]. *)
Theorem Diffs_insert_twice `{Externals}
    (uuid1 name1 uuid2 name2 : string) (now1 now2 : Z)
    (version_from version_to : string) (result : json)
    (source_type : string) (source_metadata : json) (w w1 : World) :
  Diffs.insert uuid1 name1 now1 version_from version_to result
               source_type source_metadata w = (w1, Ok uuid1) →
  uuid2 ≠ uuid1 → fresh_uuid uuid2 w →
  name2 ≠ name1 → files w !! name2 = None →
  ∃ w2 row1 row2,
    Diffs.insert uuid2 name2 now2 version_from version_to result
                 source_type source_metadata w1 = (w2, Ok uuid2) ∧
    Diffs_table w2 = Diffs_table w ++ [row1; row2] ∧
    DIFFS_COLUMNS.uuid row1 = uuid1 ∧ DIFFS_COLUMNS.uuid row2 = uuid2 ∧
    DIFFS_COLUMNS.version_from row1 = version_from ∧
    DIFFS_COLUMNS.version_from row2 = version_from ∧
    DIFFS_COLUMNS.version_to row1 = version_to ∧
    DIFFS_COLUMNS.version_to row2 = version_to ∧
    DIFFS_COLUMNS.diffhash row1 = DIFFS_COLUMNS.diffhash row2.
Proof.
  intros Hrun Huuid Hfresh Hname Hfile.
  pose proof (Diffs_insert_outcome uuid1 name1 now1 version_from version_to result
                source_type source_metadata w) as Hout.
  rewrite Hrun in Hout. simpl in Hout.
  destruct Hout as (_ & Hfresh1 & Hname1 & output & diffs & Houtput & Hdiffs & ->).
  eexists _, _, _. split.
  - apply (Diffs_insert_succeeds _ _ _ _ _ _ _ _ _ output diffs); try done.
    + intros r Hr. unfold with_new_diff in Hr; simpl in Hr.
      apply elem_of_app in Hr as [Hr|Hr]; [by apply Hfresh|].
      apply list_elem_of_singleton in Hr as ->. simpl. by apply not_eq_sym.
    + unfold with_new_diff; simpl. rewrite lookup_insert_ne; [done|].
      by apply not_eq_sym.
  - unfold with_new_diff; simpl. rewrite <- app_assoc. done.
Qed.

Lemma Diffs_insert_twice_witness :
  ∃ w2 row1 row2,
    Diffs.insert "D2" "/tmp/f2" 201 "V1" "V2" example_payload "PageFreezer" JNull
      (Diffs.insert "D1" "/tmp/f1" 200 "V1" "V2" example_payload "PageFreezer" JNull
         example_world).1 = (w2, Ok "D2") ∧
    Diffs_table w2 = Diffs_table example_world ++ [row1; row2] ∧
    DIFFS_COLUMNS.uuid row1 = "D1" ∧ DIFFS_COLUMNS.uuid row2 = "D2" ∧
    DIFFS_COLUMNS.version_from row1 = "V1" ∧
    DIFFS_COLUMNS.version_from row2 = "V1" ∧
    DIFFS_COLUMNS.version_to row1 = "V2" ∧
    DIFFS_COLUMNS.version_to row2 = "V2" ∧
    DIFFS_COLUMNS.diffhash row1 = DIFFS_COLUMNS.diffhash row2.
Proof.
  apply (Diffs_insert_twice "D1" "/tmp/f1" "D2" "/tmp/f2" 200 201 "V1" "V2"
           example_payload "PageFreezer" JNull example_world).
  - vm_compute; reflexivity.
  - done.
  - intros r Hr. by apply elem_of_nil in Hr.
  - done.
  - vm_compute; reflexivity.
Defined.

(** ** diff_version and the comparison service *)

Lemma json_eqb_ne (a b : json) : a ≠ b → json_eqb a b = false.
Proof.
  intros Hne. destruct (json_eqb a b) eqn:Heq; [|done].
  by apply json_eqb_eq in Heq.
Qed.

(** X14.  For a Version that has an older one and whose two HTML files
    are readable, [diff_version] stores nothing unless the service answers
    ['ok']: without the API key in the environment [compare] raises
    [KeyError]; whatever [compare] raises, [diff_version] raises too; and
    an answer with any other status makes it raise [PageFreezerError].
    In each case the world is left as it was. *)
Theorem diff_version_needs_an_ok `{Externals}
    (_uuid name : string) (now : Z) (version_uuid source_type : string)
    (source_metadata : json) (w : World) (version ancestor : Versions.Version)
    (html1 html2 : string) :
  Versions.getitem version_uuid w = Ok version →
  Versions.oldest (Versions.page_uuid version) w = Ok ancestor →
  ancestor ≠ version →
  read_file (Versions.uri ancestor) w = Ok html1 →
  read_file (Versions.uri version) w = Ok html2 →
  (environ w !! "PAGE_FREEZER_API_KEY" = None →
   compare html1 html2 w = Raise KeyError) ∧
  (∀ e, compare html1 html2 w = Raise e →
        diff_version _uuid name now version_uuid source_type source_metadata w =
          (w, Raise e)) ∧
  (∀ response status,
     compare html1 html2 w = Ok response →
     getitem response "status" = Ok status →
     status ≠ JStr "ok" →
     diff_version _uuid name now version_uuid source_type source_metadata w =
       (w, Raise PageFreezerError)).
Proof.
  intros Hversion Hancestor Hne Hhtml1 Hhtml2. split; [|split].
  - intros Hkey. unfold compare. by rewrite Hkey.
  - intros e Hcompare. unfold diff_version, bind, reading, try, raise, ret.
    by rewrite Hversion, Hancestor, (Versions_eqb_neq _ _ Hne), Hhtml1, Hhtml2,
      Hcompare.
  - intros response status Hcompare Hstatus Hbad.
    unfold diff_version, bind, reading, try, raise, ret.
    by rewrite Hversion, Hancestor, (Versions_eqb_neq _ _ Hne), Hhtml1, Hhtml2,
      Hcompare, Hstatus, (json_eqb_ne _ _ Hbad).
Qed.

(** The service answers with status 'error'; and the environment without
    the key. *)
Lemma diff_version_needs_an_ok_witness :
  @diff_version failing_externals "D1" "/tmp/f1" 200 "V2" "PageFreezer" JNull
     example_world = (example_world, Raise PageFreezerError) ∧
  (let w := mkWorld ∅ (files example_world) example_versions [] [] ["V1"; "V2"; "V3"] [] in
   diff_version "D1" "/tmp/f1" 200 "V2" "PageFreezer" JNull w = (w, Raise KeyError)).
Proof.
  pose (version := Versions.nt "V2" "example.gov" 10 "/html/v2" "h2" "PageFreezer" JNull).
  pose (ancestor := Versions.nt "V1" "example.gov" 0 "/html/v1" "h1" "PageFreezer" JNull).
  assert (ancestor ≠ version) as Hne by (intros Heq; discriminate Heq).
  split.
  - destruct (@diff_version_needs_an_ok failing_externals "D1" "/tmp/f1" 200 "V2"
                "PageFreezer" JNull example_world version ancestor
                "<p>a</p>" "<p>b</p>" eq_refl eq_refl Hne)
      as (_ & _ & Hstatus).
    + vm_compute; reflexivity.
    + vm_compute; reflexivity.
    + apply (Hstatus failed_response (JStr "error")).
      * vm_compute; reflexivity.
      * reflexivity.
      * discriminate.
  - intros w.
    destruct (diff_version_needs_an_ok "D1" "/tmp/f1" 200 "V2"
                "PageFreezer" JNull w version ancestor
                "<p>a</p>" "<p>b</p>" eq_refl eq_refl Hne)
      as (Hkey & Hraise & _).
    + vm_compute; reflexivity.
    + vm_compute; reflexivity.
    + apply Hraise, Hkey. apply lookup_empty.
Defined.

(** ** Annotations are only ever added *)

(** X15.  [Annotations.insert] has no uniqueness beyond the uuid: with a
    uuid not in use it succeeds whatever is stored, and the Annotation is
    appended to what [by_change] returns for its [version_from], after
    the Annotations stored earlier; what [by_change] returns for any
    other [version_from] is unchanged. *)
Theorem Annotations_insert_then_by_change
    (_uuid : string) (now : Z) (version_from version_to : string)
    (annotation : json) (author : string) (w : World) :
  (∀ r, r ∈ Annotations_table w → ANNOTATIONS_COLUMNS.uuid r ≠ _uuid) →
  let out := Annotations.insert _uuid now version_from version_to annotation
               author w in
  out.2 = Ok _uuid ∧
  (∀ asked_to,
     Annotations.by_change version_from asked_to out.1 =
       Annotations.by_change version_from asked_to w ++
         [Annotations.nt _uuid version_from version_to annotation (DateTime now)]) ∧
  (∀ other asked_to, other ≠ version_from →
     Annotations.by_change other asked_to out.1 =
       Annotations.by_change other asked_to w).
Proof.
  intros Hfresh.
  assert (existsb (fun r => String.eqb (ANNOTATIONS_COLUMNS.uuid r) _uuid)
                  (Annotations_table w) = false) as Hex.
  { apply existsb_none. intros r Hr. by apply eqb_false_of_ne, Hfresh. }
  unfold Annotations.insert, bind, ret. rewrite Hex. simpl.
  split; [done|].
  unfold Annotations.by_change, Annotations.py_and, set_Annotations_table; simpl.
  split.
  - intros _. rewrite List.filter_app, map_app. simpl.
    by rewrite String.eqb_refl.
  - intros other _ Hother. rewrite List.filter_app, map_app. simpl.
    rewrite (eqb_false_of_ne version_from other) by (by apply not_eq_sym).
    by rewrite app_nil_r.
Qed.

(** Two Annotations of one change, by two reviewers. *)
Lemma Annotations_insert_then_by_change_witness :
  let w1 := (Annotations.insert "A1" 5 "V1" "V2" (JObj [("significant", JBool true)])
               "alice" empty_world).1 in
  let out := Annotations.insert "A2" 6 "V1" "V2" (JObj [("significant", JBool false)])
               "bob" w1 in
  out.2 = Ok "A2" ∧
  Annotations.by_change "V1" "V2" out.1 =
    [Annotations.nt "A1" "V1" "V2" (JObj [("significant", JBool true)]) (DateTime 5);
     Annotations.nt "A2" "V1" "V2" (JObj [("significant", JBool false)]) (DateTime 6)].
Proof.
  intros w1 out.
  destruct (Annotations_insert_then_by_change "A2" 6 "V1" "V2"
              (JObj [("significant", JBool false)]) "bob" w1) as (Hret & Hsame & _).
  { intros r Hr. unfold w1 in Hr. simpl in Hr.
    apply list_elem_of_singleton in Hr as ->. done. }
  split; [exact Hret|]. exact (Hsame "V2").
Defined.

(** ** The first capture of a page *)

(** X16.  The first Version stored for a page has no ancestor:
    [Versions.insert] for a page that has no Version yet, followed by
    [diff_version] of the uuid it returned, raises [NoAncestor] and stores
    nothing, whatever the files and the service. *)
Theorem first_capture_has_no_ancestor `{Externals}
    (_uuid : string) (now : Z) (page_uuid : string) (capture_time : Z)
    (uri version_hash source_type : string) (source_metadata : json) (w : World)
    (diff_uuid name : string) (diff_now : Z) (diff_source_type : string)
    (diff_source_metadata : json) :
  (∀ r, r ∈ Versions_table w → VERSIONS_COLUMNS.uuid r ≠ _uuid) →
  (∀ r, r ∈ Versions_table w → VERSIONS_COLUMNS.page_uuid r ≠ page_uuid) →
  let out := Versions.insert _uuid now page_uuid capture_time uri version_hash
               source_type source_metadata w in
  out.2 = Ok _uuid ∧
  diff_version diff_uuid name diff_now _uuid diff_source_type diff_source_metadata
               out.1 = (out.1, Raise NoAncestor).
Proof.
  intros Hfresh Hpage.
  assert (existsb (fun r => String.eqb (VERSIONS_COLUMNS.uuid r) _uuid)
                  (Versions_table w) = false) as Hex.
  { apply existsb_none. intros r Hr. by apply eqb_false_of_ne, Hfresh. }
  unfold Versions.insert, bind, modify, ret. rewrite Hex. simpl.
  split; [done|].
  apply (diff_version_of_oldest _ _ _ _ _ _ _
           (Versions.nt _uuid page_uuid capture_time uri version_hash source_type
                        source_metadata)).
  - unfold Versions.getitem, set_Versions_unprocessed, set_Versions_table; simpl.
    by rewrite (find_app_new _ _ _ Hex); [|apply String.eqb_refl].
  - unfold Versions.oldest, set_Versions_unprocessed, set_Versions_table; simpl.
    rewrite filter_page_app. simpl. rewrite String.eqb_refl.
    destruct (order_by_head_intro VERSIONS_COLUMNS.capture_time
                (List.filter (fun r => String.eqb (VERSIONS_COLUMNS.page_uuid r) page_uuid)
                             (Versions_table w)) []
                (VERSIONS_COLUMNS.Row _uuid page_uuid capture_time uri
                   version_hash source_type source_metadata now now))
      as [rest' ->]; [| |done].
    + intros x Hx. apply elem_of_filter_page in Hx as [Hx Hxpage].
      by destruct (Hpage x Hx).
    + intros x Hx. by apply elem_of_nil in Hx.
Qed.

Lemma first_capture_has_no_ancestor_witness :
  let out := Versions.insert "W1" 103 "other.gov" 5 "/html/w1" "k1" "PageFreezer" JNull
               example_world in
  out.2 = Ok "W1" ∧
  diff_version "D1" "/tmp/f1" 200 "W1" "PageFreezer" JNull out.1 =
    (out.1, Raise NoAncestor).
Proof.
  apply (first_capture_has_no_ancestor "W1" 103 "other.gov" 5 "/html/w1" "k1"
           "PageFreezer" JNull example_world "D1" "/tmp/f1" 200 "PageFreezer" JNull).
  - intros r Hr. unfold example_world, example_versions in Hr. simpl in Hr.
    repeat (apply elem_of_cons in Hr as [->|Hr]; [done|]).
    by apply elem_of_nil in Hr.
  - intros r Hr. unfold example_world, example_versions in Hr. simpl in Hr.
    repeat (apply elem_of_cons in Hr as [->|Hr]; [done|]).
    by apply elem_of_nil in Hr.
Defined.

(** ** A queue over Diffs.unprocessed *)

(** X17.  While the deque and the Diffs table are in step, a WorkQueue
    whose priorities are [Diffs.unprocessed] only names Diffs that have a
    row: [checkout_next] never fails for a missing row ([TypeError]).  It
    returns a Diff that was enqueued and that nobody held, and the caller
    then holds it, everybody else's claim being as before; or it raises
    [EmptyWorkQueue] and leaves the queue as it was; or it fails on the
    payload file ([OSError], [ValueError]). *)
Theorem checkout_next_finds_the_row `{Externals}
    (user_id : string) (self : WorkQueue.t) (w : World) :
  consistent w →
  WorkQueue.iterate (WorkQueue.priorities self) w = Diffs_unprocessed w →
  let out := WorkQueue.checkout_next user_id self w in
  match out.2 with
  | Ok diff =>
      Diffs.uuid diff ∈ Diffs_unprocessed w ∧
      ¬ claimed (WorkQueue.checked_out self) (Diffs.uuid diff) ∧
      WorkQueue.checked_out out.1 =
        <[user_id := Diffs.uuid diff]> (WorkQueue.checked_out self) ∧
      WorkQueue.checked_out out.1 !! user_id = Some (Diffs.uuid diff) ∧
      ∃ row, row ∈ Diffs_table w ∧
             DIFFS_COLUMNS.uuid row = Diffs.uuid diff ∧
             DIFFS_COLUMNS.version_from row = Diffs.version_from diff ∧
             DIFFS_COLUMNS.version_to row = Diffs.version_to diff
  | Raise e =>
      (e = EmptyWorkQueue ∧ out.1 = self) ∨ e = OSError ∨ e = ValueError
  end.
Proof.
  intros Hw Hiter out. unfold out, WorkQueue.checkout_next. rewrite Hiter.
  destruct (checkout_next_loop_spec user_id self w (Diffs_unprocessed w))
    as [(i & d & (Hi & Hfree & _) & ->) | (_ & ->)]; simpl; [|by left].
  apply list_elem_of_lookup_2 in Hi. pose proof Hi as Hqueued.
  rewrite (Diffs_deque w Hw) in Hi.
  change (d ∈ DIFFS_COLUMNS.uuid <$> Diffs_table w) in Hi.
  apply list_elem_of_fmap in Hi as (r & Hd & Hr).
  unfold Diffs.getitem, read_file.
  destruct (find _ (Diffs_table w)) as [r'|] eqn:Hfind.
  - cbn. destruct (files w !! _); [|tauto].
    destruct (json_loads _); [|tauto]. cbn.
    apply find_some in Hfind as [Hin Heq]. apply String.eqb_eq in Heq.
    rewrite Heq. split; [done|]. split; [done|]. split; [done|].
    split; [apply lookup_insert_eq|].
    exists r'. split; [by apply list_elem_of_In|]. done.
  - apply list_elem_of_In in Hr.
    pose proof (find_none _ _ Hfind r Hr) as Hno. simpl in Hno.
    rewrite <- Hd in Hno. by rewrite String.eqb_refl in Hno.
Qed.

(** D1 is stored and enqueued; bob holds nothing yet, alice gets D1. *)
Lemma checkout_next_finds_the_row_witness :
  consistent world_with_D1 ∧
  let out := WorkQueue.checkout_next "alice"
               (WorkQueue.init WorkQueue.Diffs_unprocessed_deque) world_with_D1 in
  ∃ diff,
    out.2 = Ok diff ∧
    Diffs.uuid diff = "D1" ∧
    WorkQueue.checked_out out.1 !! "alice" = Some "D1" ∧
    ∃ row, row ∈ Diffs_table world_with_D1 ∧
           DIFFS_COLUMNS.uuid row = "D1" ∧
           DIFFS_COLUMNS.version_from row = Diffs.version_from diff ∧
           DIFFS_COLUMNS.version_to row = Diffs.version_to diff.
Proof.
  assert (consistent world_with_D1) as Hw.
  { split; simpl; try done; compute_done. }
  split; [exact Hw|]. intros out.
  pose proof (checkout_next_finds_the_row "alice"
                (WorkQueue.init WorkQueue.Diffs_unprocessed_deque) world_with_D1
                Hw eq_refl) as Hnext.
  fold out in Hnext. simpl in Hnext.
  assert (∃ diff, out.2 = Ok diff ∧ Diffs.uuid diff = "D1") as (diff & Hres & Huuid).
  { eexists. split; [vm_compute; reflexivity|reflexivity]. }
  rewrite Hres in Hnext. rewrite Huuid in Hnext.
  destruct Hnext as (_ & _ & _ & Hheld & Hrow).
  exists diff. split; [exact Hres|]. split; [exact Huuid|].
  split; [exact Hheld|exact Hrow].
Defined.
